(** * OptimizerTcpManager: the TCP client of generated optimizers

    A shallow embedding of [opengen/tcp/optimizer_tcp_manager.py].

    The Python methods are embedded as computations in a small monad [M]
    that threads an explicit [World] (the descriptor files on disk, the
    network, the open sockets and the trace of effects performed so far) and
    that ends in a returned value, a raised exception, or a call that blocks
    forever.  Dictionaries are stdpp finite maps with string keys, integers
    are [Z], floats are primitive binary64 floats, and a Python text string
    is represented by the byte string of its UTF-8 encoding. *)

From Stdlib Require Import ZArith List String Ascii PrimFloat DecimalString.
From stdpp Require Import gmap strings list.

(** ** Python values read from the descriptor *)

Inductive scalar :=
| PStr (s : string)
| PInt (z : Z).

Definition scalar_eqb (a b : scalar) : bool :=
  match a, b with
  | PStr s, PStr t => String.eqb s t
  | PInt x, PInt y => Z.eqb x y
  | _, _ => false
  end.

(** The descriptor ([optimizer.yml] once loaded) is a dictionary of
    dictionaries: [details['tcp']['ip']], [details['build']['build_mode']]. *)
Abbreviation descriptor := (gmap string (gmap string scalar)).

(** ** Exceptions *)

Inductive exn :=
| Exception (msg : string)
| KeyError (key : string)
| TypeError
| ValueError
| ZeroDivisionError
| FileNotFoundError (path : string)
| ConnectionRefusedError
| BadFileDescriptor
| UnicodeDecodeError
| JSONDecodeError
| ResponseError.

Inductive outcome (A : Type) :=
| Ret (a : A)
| Raise (e : exn)
| Block.
Arguments Ret {A} a.
Arguments Raise {A} e.
Arguments Block {A}.

(** ** The world: files, network, sockets and the trace of effects *)

(** What the peer of one accepted connection will deliver: the segments of
    its answer in arrival order, and whether it closes the connection after
    the last one ([closes = false]: it stays silent with the connection
    open, and a read with nothing pending blocks). *)
Record Peer := {
  incoming : list string;
  closes : bool
}.

Inductive level := DEBUG | INFO | WARNING.

Inductive event :=
| EvLog (lvl : level) (template : string)
| EvSocket (fd : nat)
| EvConnect (fd : nat) (host : string) (port : Z) (ok : bool)
| EvSendAll (fd : nat) (data : string)
| EvShutdownWr (fd : nat)
| EvRecv (fd : nat) (bufsize : Z) (chunk : string)
| EvClose (fd : nat)
| EvSleep (secs : Z)
| EvThreadStart
| EvPopen (command : list string) (cwd : string).

Record World := {
  files : gmap string descriptor;     (* YAML documents on disk, by path *)
  installed_version : string;         (* version of the installed opengen *)
  net : list (option Peer);           (* fate of the next connection attempts *)
  socks : gmap nat Peer;              (* connected sockets *)
  next_fd : nat;                      (* next fresh socket *)
  trace : list event                  (* effects so far, oldest first *)
}.

Definition emit (e : event) (w : World) : World :=
  {| files := files w; installed_version := installed_version w;
     net := net w; socks := socks w; next_fd := next_fd w;
     trace := trace w ++ [e] |}.

Definition set_net (n : list (option Peer)) (w : World) : World :=
  {| files := files w; installed_version := installed_version w;
     net := n; socks := socks w; next_fd := next_fd w; trace := trace w |}.

Definition set_socks (s : gmap nat Peer) (w : World) : World :=
  {| files := files w; installed_version := installed_version w;
     net := net w; socks := s; next_fd := next_fd w; trace := trace w |}.

Definition bump_fd (w : World) : World :=
  {| files := files w; installed_version := installed_version w;
     net := net w; socks := socks w; next_fd := S (next_fd w);
     trace := trace w |}.

(** ** The monad of effectful computations *)

Definition M (A : Type) : Type := World -> outcome A * World.

Definition ret {A} (a : A) : M A := fun w => (Ret a, w).
Definition raise {A} (e : exn) : M A := fun w => (Raise e, w).

Definition bind {A B} (m : M A) (f : A -> M B) : M B := fun w =>
  match m w with
  | (Ret a, w1) => f a w1
  | (Raise e, w1) => (Raise e, w1)
  | (Block, w1) => (Block, w1)
  end.

Notation "x <- m ;; k" := (bind m (fun x => k))
  (at level 100, m at next level, right associativity).
Notation "m ;;; k" := (bind m (fun _ => k))
  (at level 100, right associativity).

Definition tell (e : event) : M unit := fun w => (Ret tt, emit e w).

(** ** The Python runtime the client runs on *)

Module Py.

(** [d[k]] on a dictionary. *)
Definition getitem {V} (d : gmap string V) (k : string) : M V :=
  match d !! k with
  | Some v => ret v
  | None => raise (KeyError k)
  end.

(** [logging.debug / info / warn]: the level and the message template are
    recorded, the interpolated arguments are not rendered. *)
Definition logging (lvl : level) (template : string) : M unit :=
  tell (EvLog lvl template).

Definition sleep (secs : Z) : M unit := tell (EvSleep secs).

Definition sep : ascii := Ascii.ascii_of_nat 47.

Fixpoint ends_with_sep (s : string) : bool :=
  match s with
  | EmptyString => false
  | String c EmptyString => Ascii.eqb c sep
  | String _ r => ends_with_sep r
  end.

(** [os.path.join(a, b)] on POSIX for a relative [b]. *)
Definition os_path_join (a b : string) : string :=
  match a with
  | EmptyString => b
  | _ => if ends_with_sep a then a +:+ b else a +:+ String sep b
  end.

(** [yaml.safe_load(open(path, 'r'))]. *)
Definition load_yaml (path : string) : M descriptor := fun w =>
  match files w !! path with
  | Some d => (Ret d, w)
  | None => (Raise (FileNotFoundError path), w)
  end.

(** [pkg_resources.require("opengen")[0].version]. *)
Definition opengen_version : M string := fun w =>
  (Ret (installed_version w), w).

(** ["..." + x]: concatenation to a text string needs a text string. *)
Definition str_add (s : string) (x : scalar) : M string :=
  match x with
  | PStr t => ret (s +:+ t)
  | PInt _ => raise TypeError
  end.

Definition str_of_Z (z : Z) : string := NilZero.string_of_int (Z.to_int z).

(** [pre + "%d" % x + post]: [%d] needs a number. *)
Definition format_d (pre : string) (x : scalar) (post : string) : M string :=
  match x with
  | PInt z => ret (pre +:+ str_of_Z z +:+ post)
  | PStr _ => raise TypeError
  end.

(** [math.ceil(a / b)] on integers: the ceiling of the exact quotient
    (binary64 division is exact enough for that below 2^53; what is stated
    about the value of the result is stated for such operands). *)
Definition math_ceil_div (a b : Z) : M Z :=
  if (b =? 0)%Z then raise ZeroDivisionError else ret (- ((- a) / b))%Z.

(** [socket.socket(AF_INET, SOCK_STREAM, 0)]. *)
Definition socket_socket : M nat := fun w =>
  (Ret (next_fd w), emit (EvSocket (next_fd w)) (bump_fd w)).

(** [s.connect((ip, port))]: the next entry of [net] decides. *)
Definition connect (fd : nat) (ip port : scalar) : M unit := fun w =>
  match ip, port with
  | PStr host, PInt p =>
      match net w with
      | Some peer :: rest =>
          (Ret tt, emit (EvConnect fd host p true)
                     (set_socks (<[fd := peer]> (socks w)) (set_net rest w)))
      | None :: rest =>
          (Raise ConnectionRefusedError,
           emit (EvConnect fd host p false) (set_net rest w))
      | [] => (Raise ConnectionRefusedError, emit (EvConnect fd host p false) w)
      end
  | _, _ => (Raise TypeError, w)
  end.

(** [s.connect_ex((ip, port))]: the error number instead of an exception. *)
Definition connect_ex (fd : nat) (ip port : scalar) : M Z := fun w =>
  match connect fd ip port w with
  | (Ret _, w1) => (Ret 0%Z, w1)
  | (Raise ConnectionRefusedError, w1) => (Ret 111%Z, w1)
  | (Raise e, w1) => (Raise e, w1)
  | (Block, w1) => (Block, w1)
  end.

Definition sendall (fd : nat) (data : string) : M unit := fun w =>
  match socks w !! fd with
  | Some _ => (Ret tt, emit (EvSendAll fd data) w)
  | None => (Raise BadFileDescriptor, w)
  end.

Definition shutdown_wr (fd : nat) : M unit := fun w =>
  match socks w !! fd with
  | Some _ => (Ret tt, emit (EvShutdownWr fd) w)
  | None => (Raise BadFileDescriptor, w)
  end.

Definition close (fd : nat) : M unit := fun w =>
  (Ret tt, emit (EvClose fd) (set_socks (delete fd (socks w)) w)).

Definition take (n : nat) (s : string) : string := String.substring 0 n s.
Definition drop (n : nat) (s : string) : string :=
  String.substring n (String.length s - n) s.

(** The bytes one [recv(n)] takes from the pending segments, and what
    stays pending; [None] when nothing is pending. *)
Fixpoint next_chunk (n : nat) (segs : list string)
  : option (string * list string) :=
  match segs with
  | [] => None
  | EmptyString :: rest => next_chunk n rest
  | s :: rest =>
      Some (take n s,
            match drop n s with
            | EmptyString => rest
            | r => r :: rest
            end)
  end.

(** [s.recv(bufsize)] on a blocking socket.  The result is always a bytes
    object: the empty one once the peer has closed, never [None]. *)
Definition recv (fd : nat) (bufsize : Z) : M (option string) := fun w =>
  if (bufsize <? 0)%Z then (Raise ValueError, w) else
  match socks w !! fd with
  | None => (Raise BadFileDescriptor, w)
  | Some peer =>
      match next_chunk (Z.to_nat bufsize) (incoming peer) with
      | Some (chunk, pending) =>
          (Ret (Some chunk),
           emit (EvRecv fd bufsize chunk)
             (set_socks (<[fd := {| incoming := pending;
                                    closes := closes peer |}]> (socks w)) w))
      | None =>
          if closes peer
          then (Ret (Some EmptyString), emit (EvRecv fd bufsize EmptyString) w)
          else (Block, w)
      end
  end.

(** [Thread(target=body).start()]: the body runs detached; its effects
    are recorded where the thread is started and what it returns or
    raises never reaches the caller. *)
Definition thread_start (body : M unit) : M unit := fun w =>
  (Ret tt, snd (body (emit EvThreadStart w))).

(** [subprocess.Popen(command, cwd=cwd)] followed by [p.wait()], in the
    launch thread: the call is recorded with its arguments; whether the
    process could be created and when it exits stay inside the thread. *)
Definition popen (command : list string) (cwd : string) : M unit :=
  tell (EvPopen command cwd).

(** The loop of the [retry] package behind [@retry(tries, delay)], entered
    with [more + 1] tries left: an exception is swallowed while tries
    remain, the last one is raised again; between two attempts it logs,
    sleeps [delay] and then updates the delay by [backoff] and [jitter]. *)
Fixpoint retry_internal {A} (f : M A) (more : nat) (delay backoff jitter : Z)
  : M A := fun w =>
  match f w with
  | (Raise e, w1) =>
      match more with
      | O => (Raise e, w1)
      | S k =>
          (logging WARNING "%s, retrying in %s seconds..." ;;;
           sleep delay ;;;
           retry_internal f k (delay * backoff + jitter)%Z backoff jitter) w1
      end
  | r => r
  end.

(** [@retry(tries=t, delay=d)] for [t >= 1]; [backoff] and [jitter] keep
    the package's defaults 1 and 0. *)
Definition retry {A} (tries : nat) (delay : Z) (f : M A) : M A :=
  retry_internal f (tries - 1) delay 1 0.

(** [str(x)] on a float: the non-finite values have fixed names, the
    finite ones are rendered by [str_finite]. *)
Definition str_float (str_finite : float -> string) (x : float) : string :=
  match PrimFloat.classify x with
  | FloatClass.NaN => "nan"
  | FloatClass.PInf => "inf"
  | FloatClass.NInf => "-inf"
  | _ => str_finite x
  end.

End Py.

(** What the client takes from its libraries and from the rest of the
    package: the rendering of finite floats, UTF-8 validity of received
    bytes, the JSON parser, and the constructor of [SolverResponse]. *)
Class Runtime := {
  json : Type;
  response : Type;
  str_finite : float -> string;
  utf8_valid : string -> bool;
  parse_json : string -> option json;
  new_SolverResponse : json -> exn + response
}.

(** ** The client *)

Section Client.
Context {RT : Runtime}.

Import Py.

(** A double quote, and a quoted key: string literals of this file
    hold no quote characters. *)
Definition dq : string := String (Ascii.ascii_of_nat 34) EmptyString.
Definition quoted (s : string) : string := dq +:+ s +:+ dq.

Definition str : float -> string := str_float str_finite.

(** [float(x)] on a float. *)
Definition float_of (x : float) : float := x.

(** [text.encode()] and [data.decode()]: text is kept as its UTF-8
    bytes, so encoding changes nothing and decoding only validates. *)
Definition encode (text : string) : string := text.

Definition decode (data : string) : M string :=
  if utf8_valid data then ret data else raise UnicodeDecodeError.

Definition json_loads (data : string) : M json :=
  match parse_json data with
  | Some doc => ret doc
  | None => raise JSONDecodeError
  end.

Definition SolverResponse (doc : json) : M response :=
  match new_SolverResponse doc with
  | inr r => ret r
  | inl e => raise e
  end.

Record OptimizerTcpManager := {
  __optimizer_path : option string;
  __optimizer_details_from_yml : descriptor
}.

Definition __load_tcp_details (optimizer_path : string) : M descriptor :=
  logging INFO "loading TCP/IP details" ;;;
  let yaml_file := os_path_join optimizer_path "optimizer.yml" in
  details <- load_yaml yaml_file ;;
  tcp <- getitem details "tcp" ;;
  ip <- getitem tcp "ip" ;;
  tcp <- getitem details "tcp" ;;
  port <- getitem tcp "port" ;;
  logging INFO "TCP/IP details: %s:%d" ;;;
  ret details.

Definition __init__ (optimizer_path : option string) (ip port : option scalar)
  : M OptimizerTcpManager :=
  details <-
    match optimizer_path with
    | Some path => __load_tcp_details path
    | None =>
        match ip, port with
        | Some ip, Some port =>
            ret ({[ "tcp" := {[ "ip" := ip; "port" := port ]} ]} : descriptor)
        | _, _ => raise (Exception "Illegal arguments")
        end
    end ;;
  (* Check whether the optimizer was built with the current version *)
  build <- getitem details "build" ;;
  opengen_version <- getitem build "opengen_version" ;;
  current_opengen_version <- Py.opengen_version ;;
  (if negb (scalar_eqb (PStr current_opengen_version) opengen_version)
   then
     logging WARNING
       "the target optimizer was build with a different version of opengen (%s)" ;;;
     logging WARNING "you are running opengen version %s"
   else ret tt) ;;;
  ret {| __optimizer_path := optimizer_path;
         __optimizer_details_from_yml := details |}.

Definition __threaded_start (self : OptimizerTcpManager) : M unit :=
  let optimizer_details := __optimizer_details_from_yml self in
  tcp <- getitem optimizer_details "tcp" ;;
  ip <- getitem tcp "ip" ;;
  tcp <- getitem optimizer_details "tcp" ;;
  port <- getitem tcp "port" ;;
  logging INFO "Starting TCP/IP server at %s:%d (in a detached thread)" ;;;
  let command := ["cargo"; "run"; "-q"] in
  build <- getitem optimizer_details "build" ;;
  build_mode <- getitem build "build_mode" ;;
  let command :=
    if scalar_eqb build_mode (PStr "release")
    then command ++ ["--release"] else command in
  meta <- getitem optimizer_details "meta" ;;
  optimizer_name <- getitem meta "optimizer_name" ;;
  tcp_dir_name <- str_add "tcp_iface_" optimizer_name ;;
  match __optimizer_path self with
  | None => raise TypeError
  | Some path =>
      let tcp_iface_directory := os_path_join path tcp_dir_name in
      popen command tcp_iface_directory
  end.

(** The body under [@retry(tries=10, delay=1)]. *)
Definition connect_once (self : OptimizerTcpManager) : M nat :=
  let tcp_data := __optimizer_details_from_yml self in
  tcp <- getitem tcp_data "tcp" ;;
  ip <- getitem tcp "ip" ;;
  tcp <- getitem tcp_data "tcp" ;;
  port <- getitem tcp "port" ;;
  s <- socket_socket ;;
  connect s ip port ;;;
  ret s.

Definition __obtain_socket_connection (self : OptimizerTcpManager) : M nat :=
  retry 10 1 (connect_once self).

(** [for _i in range(rounds)]: read a chunk, leave the loop when the
    chunk [is None], append it otherwise. *)
Fixpoint read_rounds (conn_socket : nat) (buffer_size : Z) (rounds : nat)
    (data : string) : M string :=
  match rounds with
  | O => ret data
  | S k =>
      data_chunk <- recv conn_socket buffer_size ;;
      match data_chunk with
      | None => ret data
      | Some chunk => read_rounds conn_socket buffer_size k (data +:+ chunk)
      end
  end.

Definition __send_receive_data (self : OptimizerTcpManager)
    (text_to_send : string) (buffer_size max_data_size : Z) : M string :=
  conn_socket <- __obtain_socket_connection self ;;
  let encoded_data := encode text_to_send in
  sendall conn_socket encoded_data ;;;
  shutdown_wr conn_socket ;;;
  max_read_rounds <- math_ceil_div max_data_size buffer_size ;;
  data <- read_rounds conn_socket buffer_size (Z.to_nat max_read_rounds)
            EmptyString ;;
  close conn_socket ;;;
  decode data.

(** The defaults [buffer_size=512, max_data_size=1048576]. *)
Definition default_buffer_size : Z := 512.
Definition default_max_data_size : Z := 1048576.

Definition ping_request : string := "{" +:+ quoted "Ping" +:+ ":1}".
Definition kill_request : string := "{" +:+ quoted "Kill" +:+ ":1}".

Definition ping (self : OptimizerTcpManager) : M json :=
  let request := ping_request in
  data <- __send_receive_data self request
            default_buffer_size default_max_data_size ;;
  json_loads data.

Definition __check_if_server_is_running (self : OptimizerTcpManager)
  : M bool :=
  let tcp_data := __optimizer_details_from_yml self in
  tcp <- getitem tcp_data "tcp" ;;
  ip <- getitem tcp "ip" ;;
  tcp <- getitem tcp_data "tcp" ;;
  port <- getitem tcp "port" ;;
  s <- socket_socket ;;
  errno <- connect_ex s ip port ;;
  ret (0 =? errno)%Z.

Definition start (self : OptimizerTcpManager) : M unit :=
  match __optimizer_path self with
  | None =>
      raise (Exception
               "No optimizer path provided - cannot start a remote server")
  | Some _ =>
      running <- __check_if_server_is_running self ;;
      if running : bool then
        tcp <- getitem (__optimizer_details_from_yml self) "tcp" ;;
        port <- getitem tcp "port" ;;
        msg <- format_d "Port " port " not available" ;;
        raise (Exception msg)
      else
        logging INFO "Starting TCP/IP server thread" ;;;
        thread_start (__threaded_start self) ;;;
        logging INFO "Waiting for server to start" ;;;
        sleep 2 ;;;
        ping self ;;;
        ret tt
  end.

Definition kill (self : OptimizerTcpManager) : M unit :=
  logging INFO "Killing server" ;;;
  let request := kill_request in
  __send_receive_data self request
    default_buffer_size default_max_data_size ;;;
  ret tt.

Definition join_floats (xs : list float) : string :=
  String.concat "," (map str xs).

(** The request text [call] builds, statement by statement. *)
Definition run_message (p : list float) (initial_guess initial_y : option (list float))
    (initial_penalty : option float) : string :=
  let run_message := "{" +:+ quoted "Run" +:+ " : {" +:+ quoted "parameter" +:+ ": [" in
  let run_message := run_message +:+ join_floats p in
  let run_message := run_message +:+ "]" in
  let run_message :=
    match initial_guess with
    | Some initial_guess =>
        let run_message := run_message +:+ (", " +:+ quoted "initial_guess" +:+ ": [") in
        let run_message := run_message +:+ join_floats initial_guess in
        run_message +:+ "]"
    | None => run_message
    end in
  let run_message :=
    match initial_y with
    | Some initial_y =>
        let run_message :=
          run_message +:+ (", " +:+ quoted "initial_lagrange_multipliers" +:+ ": [") in
        let run_message := run_message +:+ join_floats initial_y in
        run_message +:+ "]"
    | None => run_message
    end in
  let run_message :=
    match initial_penalty with
    | Some initial_penalty =>
        run_message +:+ ((", " +:+ quoted "initial_penalty" +:+ ": ")
                         +:+ str (float_of initial_penalty))
    | None => run_message
    end in
  run_message +:+ "}}".

Definition call (self : OptimizerTcpManager) (p : list float)
    (initial_guess initial_y : option (list float))
    (initial_penalty : option float) (buffer_len max_data_size : Z)
  : M response :=
  (* Make request *)
  logging DEBUG "Sending request to TCP/IP server" ;;;
  let run_message := run_message p initial_guess initial_y initial_penalty in
  data <- __send_receive_data self run_message buffer_len max_data_size ;;
  doc <- json_loads data ;;
  SolverResponse doc.

(** The defaults [buffer_len=4096, max_data_size=1048576] of [call]. *)
Definition default_buffer_len : Z := 4096.

End Client.

(** ** Observations on traces *)

(** The events a computation added when it took the world from [w] to [w']. *)
Definition new_events (w w' : World) : list event :=
  drop (length (trace w)) (trace w').

(** The payloads written to sockets, in order. *)
Definition sent (evs : list event) : list string :=
  omap (fun e => match e with EvSendAll _ d => Some d | _ => None end) evs.

(** The chunks the reads returned, in order, and their concatenation. *)
Definition chunks (evs : list event) : list string :=
  omap (fun e => match e with EvRecv _ _ c => Some c | _ => None end) evs.

Definition received (evs : list event) : string :=
  fold_right String.append EmptyString (chunks evs).

(** The connection attempts, the sleeps, the sockets opened and closed. *)
Definition connect_attempts (evs : list event) : list bool :=
  omap (fun e => match e with EvConnect _ _ _ ok => Some ok | _ => None end) evs.

Definition sleeps (evs : list event) : list Z :=
  omap (fun e => match e with EvSleep s => Some s | _ => None end) evs.

Definition opened (evs : list event) : list nat :=
  omap (fun e => match e with EvSocket fd => Some fd | _ => None end) evs.

Definition closed (evs : list event) : list nat :=
  omap (fun e => match e with EvClose fd => Some fd | _ => None end) evs.

(** Whether an event starts the server: the launch thread or its process. *)
Definition is_spawn (e : event) : bool :=
  match e with
  | EvThreadStart | EvPopen _ _ => true
  | _ => false
  end.

(** An event of a connection attempt that did not succeed, on a socket
    numbered in [lo, hi): the socket, the refused connect, and the log and
    the sleep of the retry loop. *)
Definition attempt_event (lo hi : nat) (e : event) : bool :=
  match e with
  | EvSocket fd | EvConnect fd _ _ false => (lo <=? fd) && (fd <? hi)
  | EvLog _ _ | EvSleep _ => true
  | _ => false
  end.

(** A read of at most [bufsize] bytes on socket [fd]. *)
Definition recv_on (fd : nat) (bufsize : Z) (e : event) : bool :=
  match e with
  | EvRecv f n c =>
      (f =? fd) && (n =? bufsize)%Z && (String.length c <=? Z.to_nat bufsize)
  | _ => false
  end.

(** The events that open a transaction on [fd]: a fresh socket, the
    accepted connect, the whole payload, the half-close. *)
Definition opening (fd : nat) (host : string) (port : Z) (payload : string)
  : list event :=
  [EvSocket fd; EvConnect fd host port true; EvSendAll fd payload;
   EvShutdownWr fd].

(** The round cap of the read loop. *)
Definition round_cap (max_data_size buffer_size : Z) : nat :=
  Z.to_nat (- ((- max_data_size) / buffer_size))%Z.

(** The sizes for which the value of the round cap is stated: integers
    below 2^53 in absolute value, which a binary64 float holds exactly. *)
Definition float_sized (z : Z) : bool := (Z.abs z <? 2 ^ 53)%Z.

Definition not_ret {A} (o : outcome A) : Prop :=
  match o with
  | Ret _ => False
  | _ => True
  end.

(** The three ways a transaction ends.  [tx_unconnected]: no connection
    was obtained.  [tx_interrupted]: connected, but the read phase did not
    finish.  [tx_completed]: the read phase ran its rounds, the socket was
    closed, and the outcome is the decoding of what was read. *)
Inductive transaction {RT : Runtime} (w : World) (payload : string)
    (bufsize max_data_size : Z) : outcome string -> World -> Prop :=
| tx_unconnected o w' pre :
    trace w' = trace w ++ pre ->
    Forall (fun e => attempt_event (next_fd w) (next_fd w') e = true) pre ->
    next_fd w <= next_fd w' ->
    not_ret o ->
    transaction w payload bufsize max_data_size o w'
| tx_interrupted o w' fd host port pre reads :
    trace w' = trace w ++ pre ++ opening fd host port payload ++ reads ->
    Forall (fun e => attempt_event (next_fd w) fd e = true) pre ->
    Forall (fun e => recv_on fd bufsize e = true) reads ->
    next_fd w <= fd /\ next_fd w' = S fd ->
    not_ret o ->
    transaction w payload bufsize max_data_size o w'
| tx_completed w' fd host port pre reads :
    trace w' =
      trace w ++ pre ++ opening fd host port payload ++ reads ++ [EvClose fd] ->
    Forall (fun e => attempt_event (next_fd w) fd e = true) pre ->
    Forall (fun e => recv_on fd bufsize e = true) reads ->
    length reads = round_cap max_data_size bufsize ->
    next_fd w <= fd /\ next_fd w' = S fd ->
    transaction w payload bufsize max_data_size
      (if utf8_valid (received reads) then Ret (received reads)
       else Raise UnicodeDecodeError) w'.

(** The address a client holds: [tcp.ip] a text string and [tcp.port] an
    integer. *)
Definition has_address (self : OptimizerTcpManager) (host : string) (port : Z)
  : Prop :=
  exists tcp, __optimizer_details_from_yml self !! "tcp" = Some tcp /\
              tcp !! "ip" = Some (PStr host) /\ tcp !! "port" = Some (PInt port).

(** The next [n] connection attempts are all refused. *)
Definition all_refused (n : nat) (l : list (option Peer)) : bool :=
  forallb (fun x => match x with None => true | Some _ => false end) (take n l).

(** The events of [k] refused attempts in a row from socket [fd] on, each
    followed by the log and the sleep of the retry loop. *)
Fixpoint refused_attempts (host : string) (port : Z) (delay : Z) (fd k : nat)
  : list event :=
  match k with
  | O => []
  | S k' =>
      [EvSocket fd; EvConnect fd host port false;
       EvLog WARNING "%s, retrying in %s seconds..."; EvSleep delay]
      ++ refused_attempts host port delay (S fd) k'
  end.

(** ** The request document of a run, as the protocol describes it *)

Section RunDocument.
Context {RT : Runtime}.

Definition array (xs : list float) : string :=
  "[" +:+ String.concat "," (map str xs) +:+ "]".

Definition member (key value : string) : string :=
  quoted key +:+ ": " +:+ value.

Definition optional_member {A} (key : string) (render : A -> string)
    (x : option A) : string :=
  match x with
  | Some v => ", " +:+ member key (render v)
  | None => EmptyString
  end.

(** The required [parameter] array, then [initial_guess],
    [initial_lagrange_multipliers] and [initial_penalty], each present only
    when supplied, in that order. *)
Definition run_document (p : list float)
    (initial_guess initial_multipliers : option (list float))
    (initial_penalty : option float) : string :=
  "{" +:+ quoted "Run" +:+ " : {" +:+
    member "parameter" (array p) +:+
    optional_member "initial_guess" array initial_guess +:+
    optional_member "initial_lagrange_multipliers" array initial_multipliers +:+
    optional_member "initial_penalty" str initial_penalty +:+
  "}}".

(** [tok] occurs in [s]. *)
Definition occurs_in (tok s : string) : Prop :=
  exists pre post, s = pre +:+ tok +:+ post.

(** The floats that are not numbers of the JSON grammar, and the token
    [str] renders them with (after a sign for the negative infinity). *)
Definition non_finite (x : float) : bool :=
  match PrimFloat.classify x with
  | FloatClass.NaN | FloatClass.PInf | FloatClass.NInf => true
  | _ => false
  end.

Definition non_finite_token (x : float) : string :=
  match PrimFloat.classify x with
  | FloatClass.NaN => "nan"
  | _ => "inf"
  end.

End RunDocument.

(** ** The public transactions *)

Inductive request :=
| Ping
| Kill
| Run (p : list float) (initial_guess initial_y : option (list float))
      (initial_penalty : option float) (buffer_len max_data_size : Z).

Section Requests.
Context {RT : Runtime}.

(** A public operation, run for its effects. *)
Definition perform (self : OptimizerTcpManager) (r : request) : M unit :=
  match r with
  | Ping => ping self ;;; ret tt
  | Kill => kill self
  | Run p initial_guess initial_y initial_penalty buffer_len max_data_size =>
      call self p initial_guess initial_y initial_penalty buffer_len
        max_data_size ;;; ret tt
  end.

(** The text the operation hands to the transport, and its read buffer. *)
Definition payload_of (r : request) : string :=
  match r with
  | Ping => ping_request
  | Kill => kill_request
  | Run p initial_guess initial_y initial_penalty _ _ =>
      run_message p initial_guess initial_y initial_penalty
  end.

Definition buffer_of (r : request) : Z :=
  match r with
  | Run _ _ _ _ buffer_len _ => buffer_len
  | _ => default_buffer_size
  end.

Definition max_size_of (r : request) : Z :=
  match r with
  | Run _ _ _ _ _ max_data_size => max_data_size
  | _ => default_max_data_size
  end.


End Requests.

(** Bytes that do not decode to one well-formed document, and the errors
    of the decoding step (the protocol error of the client). *)
Section Decoding.
Context {RT : Runtime}.

Definition undecodable (data : string) : Prop :=
  utf8_valid data = false \/ parse_json data = None.

Definition decode_error {A} (o : outcome A) : Prop :=
  o = Raise UnicodeDecodeError \/ o = Raise JSONDecodeError.

End Decoding.

(** A log line. *)
Definition is_log (e : event) : bool :=
  match e with
  | EvLog _ _ => true
  | _ => false
  end.

(** The socket an event is about. *)
Definition socket_of (e : event) : option nat :=
  match e with
  | EvSocket fd | EvConnect fd _ _ _ | EvSendAll fd _ | EvShutdownWr fd
  | EvRecv fd _ _ | EvClose fd => Some fd
  | _ => None
  end.

Definition sockets (evs : list event) : list nat := omap socket_of evs.

(** Every socket of the event is numbered in [lo, hi). *)
Definition within (lo hi : nat) (e : event) : bool :=
  match socket_of e with
  | Some fd => (lo <=? fd) && (fd <? hi)
  | None => true
  end.

(** The connection lifecycle of one call: after attempts that failed on
    other sockets, a fresh socket [fd] is opened and connected, the whole
    payload is written, the write side is shut down, then come the reads, all
    on [fd], and last the close of [fd]. *)
Definition lifecycle (w w' : World) (payload : string) (bufsize : Z) : Prop :=
  exists fd host port pre reads,
    new_events w w' =
      pre ++ opening fd host port payload ++ reads ++ [EvClose fd] /\
    Forall (fun e => attempt_event (next_fd w) fd e = true) pre /\
    Forall (fun e => recv_on fd bufsize e = true) reads /\
    next_fd w <= fd /\ next_fd w' = S fd.



(** ** More observations *)

(** The processes started: command and working directory. *)
Definition popens (evs : list event) : list (list string * string) :=
  omap (fun e => match e with EvPopen c d => Some (c, d) | _ => None end) evs.

(** The number of warnings logged. *)
Definition warnings (evs : list event) : nat :=
  length (omap (fun e => match e with
                         | EvLog WARNING _ => Some tt
                         | _ => None
                         end) evs).

(** All the bytes of the segments a peer delivers. *)
Definition stream (segs : list string) : string :=
  fold_right String.append EmptyString segs.

(** An event of the launch thread: a log line or the process it starts. *)
Definition launch_event (e : event) : bool := is_log e || is_spawn e.

(** A computation confined to events of one kind: whatever its outcome,
    it only adds events satisfying [P] to the trace and leaves the network,
    the sockets and the files as they are. *)
Definition confined {A} (P : event -> bool) (m : M A) : Prop :=
  forall w o w', m w = (o, w') ->
    exists evs,
      trace w' = trace w ++ evs /\
      Forall (fun e => P e = true) evs /\
      next_fd w' = next_fd w /\ net w' = net w /\
      socks w' = socks w /\ files w' = files w.

(** A log line at level [INFO]. *)
Definition is_info (e : event) : bool :=
  match e with
  | EvLog INFO _ => true
  | _ => false
  end.

(** ** A concrete runtime, descriptor and worlds *)

Module Demo.
Import Py.

Definition pong : string := "{" +:+ quoted "Pong" +:+ ":1}".

(** A runtime that renders every finite float as [1.5], takes every byte
    string for valid UTF-8 and parses the single document [pong]. *)
Definition rt : Runtime := {|
  json := string;
  response := string;
  str_finite := fun _ => "1.5";
  utf8_valid := fun _ => true;
  parse_json := fun s => if String.eqb s pong then Some s else None;
  new_SolverResponse := fun doc => inr doc
|}.

Definition details : descriptor :=
  {[ "tcp" := {[ "ip" := PStr "127.0.0.1"; "port" := PInt 8333 ]};
     "build" := {[ "build_mode" := PStr "release";
                   "opengen_version" := PStr "0.6.1" ]};
     "meta" := {[ "optimizer_name" := PStr "foo" ]} ]}.

Definition world (n : list (option Peer)) : World :=
  {| files := {[ "/opt/optimizer.yml" := details ]};
     installed_version := "0.6.1";
     net := n; socks := ∅; next_fd := 3; trace := [] |}.

(** A server that answers [pong] and closes, one that answers garbage. *)
Definition server : Peer := {| incoming := [pong]; closes := true |}.
Definition garbled : Peer := {| incoming := ["{"; "oops"]; closes := true |}.

Definition client : OptimizerTcpManager :=
  {| __optimizer_path := Some "/opt";
     __optimizer_details_from_yml := details |}.

(** Two servers in a row, and the worlds after a ping and then a kill. *)
Definition reachable : World := world [Some server; Some server].
Definition after_ping : World := snd (perform (RT := rt) client Ping reachable).
Definition after_kill : World := snd (perform (RT := rt) client Kill after_ping).

(** A run whose read stops after two rounds of four bytes. *)
Definition short_run : request :=
  Run [PrimFloat.one] None None None 4 8.
Definition after_short_run : World :=
  snd (perform (RT := rt) client short_run (world [Some server])).

(** A run with an infinite parameter. *)
Definition wild : list float := [PrimFloat.one; PrimFloat.infinity].


(** The sections of the descriptor. *)
Definition tcp : gmap string scalar :=
  {[ "ip" := PStr "127.0.0.1"; "port" := PInt 8333 ]}.
Definition build : gmap string scalar :=
  {[ "build_mode" := PStr "release"; "opengen_version" := PStr "0.6.1" ]}.
Definition meta : gmap string scalar :=
  {[ "optimizer_name" := PStr "foo" ]}.

(** A machine whose installed version is newer than the descriptor's, and
    the world after constructing a local client there. *)
Definition upgraded : World :=
  {| files := {[ "/opt/optimizer.yml" := details ]};
     installed_version := "0.7.0";
     net := []; socks := ∅; next_fd := 3; trace := [] |}.
Definition constructed : World :=
  snd (__init__ (Some "/opt") None None upgraded).


(** A free port on which the launched server answers the first ping, and
    the world after [start]. *)
Definition free_port : World := world [None; Some server].
Definition started : World := snd (start (RT := rt) client free_port).

(** A server that refuses twice before it accepts, and the world after a
    ping. *)
Definition slow : World := world [None; None; Some server].
Definition after_slow_ping : World := snd (perform (RT := rt) client Ping slow).

End Demo.

(** * Properties *)

(** ** The shape of a transaction *)

Section Backbone.
Context {RT : Runtime}.
Import Py.

Lemma attempt_event_weaken lo hi lo' hi' e :
  lo' <= lo -> hi <= hi' ->
  attempt_event lo hi e = true -> attempt_event lo' hi' e = true.
Proof.
  intros Hlo Hhi.
  destruct e as [| fd | fd h p [] | | | | | | |]; simpl; try done;
    rewrite !andb_true_iff, !Nat.leb_le, !Nat.ltb_lt; lia.
Qed.

Lemma attempts_weaken lo hi lo' hi' evs :
  lo' <= lo -> hi <= hi' ->
  Forall (fun e => attempt_event lo hi e = true) evs ->
  Forall (fun e => attempt_event lo' hi' e = true) evs.
Proof.
  intros Hlo Hhi H. eapply Forall_impl; [exact H|].
  intros e. by apply attempt_event_weaken.
Qed.

Lemma bind_getitem {V B} (d : gmap string V) k (f : V -> M B) w :
  bind (getitem d k) f w =
  match d !! k with
  | Some v => f v w
  | None => (Raise (KeyError k), w)
  end.
Proof. unfold bind, getitem. by destruct (d !! k). Qed.

(** One connection attempt either fails, leaving only events of a failed
    attempt, or returns the fresh socket connected to the client's address. *)
Lemma connect_once_cases self w :
  match connect_once self w with
  | (Ret fd, w') =>
      fd = next_fd w /\ next_fd w' = S fd /\ is_Some (socks w' !! fd) /\
      exists host port,
        has_address self host port /\
        trace w' = trace w ++ [EvSocket fd; EvConnect fd host port true]
  | (_, w') =>
      next_fd w <= next_fd w' /\
      exists evs,
        trace w' = trace w ++ evs /\
        Forall (fun e => attempt_event (next_fd w) (next_fd w') e = true) evs
  end.
Proof.
  unfold connect_once, bind, getitem, ret, raise.
  destruct (_ !! "tcp") as [tcp|] eqn:Htcp; simpl.
  2:{ split; [lia|]. exists []. by rewrite app_nil_r. }
  destruct (tcp !! "ip") as [ip|] eqn:Hip; simpl.
  2:{ split; [lia|]. exists []. by rewrite app_nil_r. }
  destruct (tcp !! "port") as [port|] eqn:Hport; simpl.
  2:{ split; [lia|]. exists []. by rewrite app_nil_r. }
  unfold socket_socket, connect.
  destruct ip as [host|], port as [|p]; simpl.
  1,3,4: split; [lia|]; exists [EvSocket (next_fd w)]; split; [done|];
    repeat constructor; simpl; rewrite andb_true_iff, Nat.leb_le, Nat.ltb_lt; lia.
  destruct (net w) as [|[peer|] rest]; simpl.
  - split; [lia|]. exists [EvSocket (next_fd w); EvConnect (next_fd w) host p false].
    split; [by rewrite <- app_assoc|].
    repeat constructor; simpl; rewrite andb_true_iff, Nat.leb_le, Nat.ltb_lt; lia.
  - repeat split; [by rewrite lookup_insert_eq|].
    exists host, p. split; [by exists tcp|]. by rewrite <- app_assoc.
  - split; [lia|]. exists [EvSocket (next_fd w); EvConnect (next_fd w) host p false].
    split; [by rewrite <- app_assoc|].
    repeat constructor; simpl; rewrite andb_true_iff, Nat.leb_le, Nat.ltb_lt; lia.
Qed.

Lemma retry_internal_eq {A} (f : M A) more delay backoff jitter w :
  retry_internal f more delay backoff jitter w =
  match f w with
  | (Raise e, w1) =>
      match more with
      | O => (Raise e, w1)
      | S k =>
          retry_internal f k (delay * backoff + jitter)%Z backoff jitter
            (emit (EvSleep delay)
               (emit (EvLog WARNING "%s, retrying in %s seconds...") w1))
      end
  | r => r
  end.
Proof. destruct more; reflexivity. Qed.

(** The retry loop around the connection attempt: it returns a fresh
    connected socket after some failed attempts, or it fails after failed
    attempts only. *)
Lemma retry_cases self more : forall delay w,
  match retry_internal (connect_once self) more delay 1 0 w with
  | (Ret fd, w') =>
      next_fd w <= fd /\ next_fd w' = S fd /\ is_Some (socks w' !! fd) /\
      exists host port pre,
        has_address self host port /\
        trace w' = trace w ++ pre ++ [EvSocket fd; EvConnect fd host port true] /\
        Forall (fun e => attempt_event (next_fd w) fd e = true) pre
  | (_, w') =>
      next_fd w <= next_fd w' /\
      exists pre,
        trace w' = trace w ++ pre /\
        Forall (fun e => attempt_event (next_fd w) (next_fd w') e = true) pre
  end.
Proof.
  induction more as [|k IH]; intros delay w; rewrite retry_internal_eq;
    pose proof (connect_once_cases self w) as Hc;
    destruct (connect_once self w) as [[fd|e|] w1].
  1,4: destruct Hc as (-> & Hn & Hs & host & port & Ha & Ht);
       (split; [lia|]); (split; [done|]); (split; [done|]);
       exists host, port, []; by repeat split.
  1,2,4: done.
  destruct Hc as (Hle & evs & Ht & Hf).
  set (w2 := emit _ (emit _ w1)).
  assert (Ht2 : trace w2 = trace w ++ evs ++
            [EvLog WARNING "%s, retrying in %s seconds..."; EvSleep delay]).
  { unfold w2; simpl. rewrite Ht, <- !app_assoc. done. }
  assert (Hn2 : next_fd w2 = next_fd w1) by done.
  specialize (IH (delay * 1 + 0)%Z w2).
  destruct (retry_internal _ k _ 1 0 w2) as [[fd|e'|] w'].
  - destruct IH as (Hfd & Hn & Hs & host & port & pre & Ha & Ht' & Hf').
    split; [lia|]. split; [done|]. split; [done|].
    exists host, port, (evs ++ [EvLog WARNING "%s, retrying in %s seconds...";
                                EvSleep delay] ++ pre).
    split; [done|]. split.
    { rewrite Ht', Ht2, <- !app_assoc. done. }
    rewrite !Forall_app. repeat split.
    + eapply attempts_weaken; [| |exact Hf]; lia.
    + by repeat constructor.
    + eapply attempts_weaken; [| |exact Hf']; lia.
  - destruct IH as (Hle' & pre & Ht' & Hf').
    split; [lia|].
    exists (evs ++ [EvLog WARNING "%s, retrying in %s seconds...";
                    EvSleep delay] ++ pre).
    split. { rewrite Ht', Ht2, <- !app_assoc. done. }
    rewrite !Forall_app. repeat split.
    + eapply attempts_weaken; [| |exact Hf]; lia.
    + by repeat constructor.
    + eapply attempts_weaken; [| |exact Hf']; lia.
  - destruct IH as (Hle' & pre & Ht' & Hf').
    split; [lia|].
    exists (evs ++ [EvLog WARNING "%s, retrying in %s seconds...";
                    EvSleep delay] ++ pre).
    split. { rewrite Ht', Ht2, <- !app_assoc. done. }
    rewrite !Forall_app. repeat split.
    + eapply attempts_weaken; [| |exact Hf]; lia.
    + by repeat constructor.
    + eapply attempts_weaken; [| |exact Hf']; lia.
Qed.

Lemma length_take n : forall s, String.length (take n s) <= n.
Proof.
  unfold take. induction n as [|n IH]; intros [|c s]; simpl; try lia.
  specialize (IH s). lia.
Qed.

Lemma next_chunk_length n segs chunk pending :
  next_chunk n segs = Some (chunk, pending) -> String.length chunk <= n.
Proof.
  induction segs as [|[|c s] rest IH]; simpl; [done|done|].
  intros [= <- _]. apply length_take.
Qed.

(** A read returns a chunk of at most [bufsize] bytes, and never [None];
    when it raises or blocks, the world is as before. *)
Lemma recv_cases fd b w :
  match recv fd b w with
  | (Ret (Some c), w') =>
      trace w' = trace w ++ [EvRecv fd b c] /\ next_fd w' = next_fd w /\
      String.length c <= Z.to_nat b /\ is_Some (socks w' !! fd)
  | (Ret None, _) => False
  | (_, w') => w' = w
  end.
Proof.
  unfold recv. destruct (b <? 0)%Z; [done|].
  destruct (socks w !! fd) as [peer|] eqn:Hs; [|done].
  destruct (next_chunk _ _) as [[chunk pending]|] eqn:Hn.
  - repeat split; simpl.
    + eapply next_chunk_length, Hn.
    + by rewrite lookup_insert_eq.
  - destruct (closes peer); [|done]. repeat split; simpl; [lia|by rewrite Hs].
Qed.

Lemma append_nil_r s : s +:+ EmptyString = s.
Proof.
  induction s as [|c s IH]; [reflexivity|].
  change (String c (s +:+ EmptyString) = String c s). by rewrite IH.
Qed.

Lemma append_assoc (a b c : string) : (a +:+ b) +:+ c = a +:+ (b +:+ c).
Proof.
  induction a as [|x a IH]; [reflexivity|].
  change (String x ((a +:+ b) +:+ c) = String x (a +:+ (b +:+ c))).
  by rewrite IH.
Qed.

(** The read loop performs reads on its socket only; when it returns, it
    ran all its rounds and returns what it was given followed by
    everything the reads returned. *)
Lemma read_rounds_cases fd b rounds : forall data w o w',
  read_rounds fd b rounds data w = (o, w') ->
  exists reads,
    trace w' = trace w ++ reads /\
    Forall (fun e => recv_on fd b e = true) reads /\
    next_fd w' = next_fd w /\
    match o with
    | Ret d => d = data +:+ received reads /\ length reads = rounds
    | _ => True
    end.
Proof.
  induction rounds as [|k IH]; intros data w o w' H; simpl in H.
  { injection H as <- <-. exists []. rewrite app_nil_r. unfold received; simpl.
    rewrite append_nil_r. by repeat split. }
  unfold bind in H. pose proof (recv_cases fd b w) as Hr.
  destruct (recv fd b w) as [[[c|]|e|] w1]; [|done| |].
  2,3: subst w1; injection H as <- <-; exists []; rewrite app_nil_r;
       by repeat split.
  destruct Hr as (Ht & Hn & Hlen & Hs).
  destruct (IH _ _ _ _ H) as (reads & Ht' & Hf & Hn' & Ho).
  exists (EvRecv fd b c :: reads). split; [|split; [|split]].
  - rewrite Ht', Ht, <- app_assoc. done.
  - constructor; [|done]. simpl.
    rewrite !andb_true_iff, Nat.eqb_eq, Z.eqb_eq, Nat.leb_le. done.
  - congruence.
  - destruct o; [|done|done]. destruct Ho as [-> <-].
    split; [|done]. unfold received; simpl. by rewrite append_assoc.
Qed.

(** What follows the connection: the payload is written and the write side
    shut down; then either the read phase does not finish, or it runs all its
    rounds, the socket is closed and the bytes read are decoded. *)
Lemma exchange_cases fd payload b m w1 o w' :
  is_Some (socks w1 !! fd) ->
  (sendall fd (encode payload) ;;;
   shutdown_wr fd ;;;
   max_read_rounds <- math_ceil_div m b ;;
   data <- read_rounds fd b (Z.to_nat max_read_rounds) EmptyString ;;
   close fd ;;;
   decode data) w1 = (o, w') ->
  exists reads,
    Forall (fun e => recv_on fd b e = true) reads /\
    next_fd w' = next_fd w1 /\
    ((trace w' = trace w1 ++ [EvSendAll fd payload; EvShutdownWr fd] ++ reads /\
      not_ret o) \/
     (trace w' = trace w1 ++ [EvSendAll fd payload; EvShutdownWr fd] ++ reads
                   ++ [EvClose fd] /\
      length reads = round_cap m b /\
      o = if utf8_valid (received reads) then Ret (received reads)
          else Raise UnicodeDecodeError)).
Proof.
  intros [peer Hs] H.
  unfold bind at 1, sendall, encode in H. rewrite Hs in H.
  unfold bind at 1, shutdown_wr in H. simpl in H. rewrite Hs in H.
  set (w3 := emit (EvShutdownWr fd) (emit (EvSendAll fd payload) w1)) in H.
  assert (Ht3 : trace w3 = trace w1 ++ [EvSendAll fd payload; EvShutdownWr fd]).
  { unfold w3; simpl. rewrite <- !app_assoc. done. }
  assert (Hn3 : next_fd w3 = next_fd w1) by done.
  unfold bind at 1, math_ceil_div in H.
  destruct (b =? 0)%Z.
  { injection H as <- <-. exists []. split; [done|]. split; [done|]. left.
    by rewrite app_nil_r. }
  unfold ret at 1 in H. fold (round_cap m b) in H. unfold bind at 1 in H.
  destruct (read_rounds fd b (round_cap m b) EmptyString w3) as [o4 w4] eqn:Hrd.
  destruct (read_rounds_cases _ _ _ _ _ _ _ Hrd)
    as (reads & Ht' & Hfr & Hn' & Ho).
  exists reads. split; [done|].
  destruct o4 as [d|e|].
  2,3: injection H as <- <-; (split; [congruence|]); left;
       by rewrite Ht', Ht3, <- !app_assoc.
  destruct Ho as [-> Hlen]. unfold bind, close, decode in H.
  change (EmptyString +:+ received reads) with (received reads) in H.
  set (w5 := emit _ _) in H.
  assert (Ht5 : trace w5 = trace w1 ++ [EvSendAll fd payload; EvShutdownWr fd]
                  ++ reads ++ [EvClose fd]).
  { unfold w5; simpl. rewrite Ht', Ht3, <- !app_assoc. done. }
  assert (Hn5 : next_fd w5 = next_fd w1) by (unfold w5; simpl; congruence).
  destruct (utf8_valid (received reads)) eqn:Hu; injection H as <- <-;
    (split; [done|]); right; done.
Qed.

Lemma send_receive_transaction self payload b m w o w' :
  __send_receive_data self payload b m w = (o, w') ->
  transaction w payload b m o w'.
Proof.
  intros H. unfold __send_receive_data, __obtain_socket_connection, retry in H.
  change (10 - 1) with 9 in H. unfold bind at 1 in H.
  pose proof (retry_cases self 9 1 w) as Hc.
  destruct (retry_internal _ 9 1 1 0 w) as [[fd|e|] w1].
  2,3: injection H as <- <-; destruct Hc as (Hle & pre & Ht & Hf);
       by eapply tx_unconnected.
  destruct Hc as (Hfd & Hn & Hs & host & port & pre & Ha & Ht & Hf).
  destruct (exchange_cases _ _ _ _ _ _ _ Hs H)
    as (reads & Hfr & Hn' & [[Ht' Ho]|(Ht' & Hlen & ->)]).
  - apply (tx_interrupted w payload b m _ _ fd host port pre reads);
      [rewrite Ht', Ht, <- !app_assoc; done | done | done
      | split; [lia|congruence] | done].
  - apply (tx_completed w payload b m _ fd host port pre reads);
      [rewrite Ht', Ht, <- !app_assoc; done | done | done | done
      | split; [lia|congruence]].
Qed.

Lemma connect_once_eq self host port w :
  has_address self host port ->
  connect_once self w =
  (s <- socket_socket ;; connect s (PStr host) (PInt port) ;;; ret s) w.
Proof.
  intros (tcp & Ht & Hip & Hport). unfold connect_once.
  rewrite bind_getitem, Ht, bind_getitem, Hip, bind_getitem, Ht,
    bind_getitem, Hport. done.
Qed.

(** When the client holds an address and the next attempt is accepted, the
    connection is obtained at once, on the next fresh socket. *)
Lemma obtain_first_accepted self host port w peer rest :
  has_address self host port ->
  net w = Some peer :: rest ->
  exists w1,
    __obtain_socket_connection self w = (Ret (next_fd w), w1) /\
    trace w1 = trace w ++ [EvSocket (next_fd w);
                           EvConnect (next_fd w) host port true] /\
    next_fd w1 = S (next_fd w) /\
    socks w1 !! next_fd w = Some peer.
Proof.
  intros Ha Hnet.
  unfold __obtain_socket_connection, retry. rewrite retry_internal_eq.
  rewrite (connect_once_eq _ _ _ _ Ha). unfold bind, socket_socket, connect.
  simpl. rewrite Hnet. eexists. split; [reflexivity|]. simpl.
  rewrite <- app_assoc, lookup_insert_eq. done.
Qed.

(** When the next [more + 1] attempts are all refused, the retry loop makes
    exactly these attempts, sleeping [delay] between two of them, and raises
    the refusal of the last one. *)
Lemma retry_all_refused self host port delay more : forall w,
  has_address self host port ->
  all_refused (S more) (net w) = true ->
  exists w',
    retry_internal (connect_once self) more delay 1 0 w
      = (Raise ConnectionRefusedError, w') /\
    trace w' = trace w ++ refused_attempts host port delay (next_fd w) more
                 ++ [EvSocket (next_fd w + more);
                     EvConnect (next_fd w + more) host port false].
Proof.
  induction more as [|k IH]; intros w Ha Hr; rewrite retry_internal_eq;
    rewrite (connect_once_eq _ _ _ _ Ha); unfold bind, socket_socket, connect;
    simpl.
  - rewrite Nat.add_0_r.
    destruct (net w) as [|[peer|] rest]; [|done|]; eexists;
      (split; [reflexivity|]); simpl; by rewrite <- app_assoc.
  - assert (Hd : (delay * 1 + 0)%Z = delay) by lia. rewrite Hd.
    destruct (net w) as [|[peer|] rest] eqn:Hnet; [|done|].
    + set (w2 := emit (EvSleep delay) _).
      destruct (IH w2 Ha) as (w' & Hw' & Ht').
      { unfold w2; simpl. by rewrite Hnet. }
      exists w'. split; [done|]. rewrite Ht'. unfold w2; simpl.
      rewrite <- !app_assoc. simpl. by rewrite Nat.add_succ_r.
    + set (w2 := emit (EvSleep delay) _).
      destruct (IH w2 Ha) as (w' & Hw' & Ht').
      { unfold w2; simpl. exact Hr. }
      exists w'. split; [done|]. rewrite Ht'. unfold w2; simpl.
      rewrite <- !app_assoc. simpl. by rewrite Nat.add_succ_r.
Qed.

End Backbone.

(** ** What the traces of the public operations look like *)

Section Operations.
Context {RT : Runtime}.
Import Py.

Lemma new_events_app w w' evs :
  trace w' = trace w ++ evs -> new_events w w' = evs.
Proof. intros H. unfold new_events. rewrite H. apply drop_app_length. Qed.

Lemma attempts_silent lo hi pre :
  Forall (fun e => attempt_event lo hi e = true) pre ->
  sent pre = [] /\ chunks pre = [] /\ closed pre = [] /\
  Forall (fun ok => ok = false) (connect_attempts pre) /\
  Forall (fun e => within lo hi e = true) pre.
Proof.
  induction 1 as [|e pre He _ (IH1 & IH2 & IH3 & IH4 & IH5)]; [done|].
  destruct e as [| fd | fd h p [] | | | | | | |]; try done; simpl in *;
    rewrite ?IH1, ?IH2, ?IH3; repeat split; try done; by constructor.
Qed.

Lemma reads_silent fd b reads :
  Forall (fun e => recv_on fd b e = true) reads ->
  sent reads = [] /\ closed reads = [] /\ connect_attempts reads = [] /\
  Forall (fun e => socket_of e = Some fd) reads.
Proof.
  induction 1 as [|e reads He _ (IH1 & IH2 & IH3 & IH4)]; [done|].
  destruct e as [| | | | | f n c | | | |]; try done. simpl in *.
  rewrite !andb_true_iff, Nat.eqb_eq in He. destruct He as [[-> _] _].
  repeat split; try done. by constructor.
Qed.


Lemma ping_eq self w :
  ping self w =
  match __send_receive_data self ping_request default_buffer_size
          default_max_data_size w with
  | (Ret d, w1) =>
      match parse_json d with
      | Some doc => (Ret doc, w1)
      | None => (Raise JSONDecodeError, w1)
      end
  | (Raise e, w1) => (Raise e, w1)
  | (Block, w1) => (Block, w1)
  end.
Proof.
  unfold ping, bind, json_loads.
  destruct (__send_receive_data _ _ _ _ _) as [[d|e|] w1]; try done.
  by destruct (parse_json d).
Qed.

Lemma kill_eq self w :
  kill self w =
  match __send_receive_data self kill_request default_buffer_size
          default_max_data_size (emit (EvLog INFO "Killing server") w) with
  | (Ret d, w1) => (Ret tt, w1)
  | (Raise e, w1) => (Raise e, w1)
  | (Block, w1) => (Block, w1)
  end.
Proof.
  unfold kill, bind, logging, tell.
  by destruct (__send_receive_data _ _ _ _ _) as [[d|e|] w1].
Qed.

Lemma call_eq self p g y pen b m w :
  call self p g y pen b m w =
  match __send_receive_data self (run_message p g y pen) b m
          (emit (EvLog DEBUG "Sending request to TCP/IP server") w) with
  | (Ret d, w1) =>
      match parse_json d with
      | Some doc =>
          match new_SolverResponse doc with
          | inr r => (Ret r, w1)
          | inl e => (Raise e, w1)
          end
      | None => (Raise JSONDecodeError, w1)
      end
  | (Raise e, w1) => (Raise e, w1)
  | (Block, w1) => (Block, w1)
  end.
Proof.
  unfold call, bind, logging, tell, json_loads, SolverResponse.
  destruct (__send_receive_data _ _ _ _ _) as [[d|e|] w1]; try done.
  destruct (parse_json d) as [doc|]; [|done]. unfold ret; simpl.
  by destruct (new_SolverResponse doc).
Qed.

Lemma perform_cases self r w o w' :
  perform self r w = (o, w') ->
  exists logs w0 o1,
    Forall (fun e => is_log e = true) logs /\
    trace w0 = trace w ++ logs /\ next_fd w0 = next_fd w /\ net w0 = net w /\
    __send_receive_data self (payload_of r) (buffer_of r) (max_size_of r) w0
      = (o1, w') /\
    match o1 with
    | Ret _ => True
    | Raise e => o = Raise e
    | Block => o = Block
    end.
Proof.
  destruct r as [| |p g y pen b m]; simpl; intros H.
  - exists [], w. unfold bind in H. rewrite ping_eq in H.
    destruct (__send_receive_data _ _ _ _ w) as [[d|e|] w1] eqn:Hs.
    + exists (Ret d). rewrite app_nil_r.
      destruct (parse_json d); injection H as <- <-; by repeat split.
    + exists (Raise e). rewrite app_nil_r. by injection H as <- <-.
    + exists Block. rewrite app_nil_r. by injection H as <- <-.
  - exists [EvLog INFO "Killing server"], (emit (EvLog INFO "Killing server") w).
    rewrite kill_eq in H.
    destruct (__send_receive_data _ _ _ _ _) as [[d|e|] w1] eqn:Hs;
      [exists (Ret d)|exists (Raise e)|exists Block]; injection H as <- <-;
      repeat split; try done; by repeat constructor.
  - exists [EvLog DEBUG "Sending request to TCP/IP server"],
      (emit (EvLog DEBUG "Sending request to TCP/IP server") w).
    unfold bind in H. rewrite call_eq in H.
    destruct (__send_receive_data _ _ _ _ _) as [[d|e|] w1] eqn:Hs;
      [exists (Ret d)|exists (Raise e)|exists Block].
    + destruct (parse_json d) as [doc|];
        [destruct (new_SolverResponse doc)|]; injection H as <- <-;
        repeat split; try done; by repeat constructor.
    + injection H as <- <-. repeat split; try done; by repeat constructor.
    + injection H as <- <-. repeat split; try done; by repeat constructor.
Qed.

Lemma logs_are_attempts lo hi logs :
  Forall (fun e => is_log e = true) logs ->
  Forall (fun e => attempt_event lo hi e = true) logs.
Proof.
  intros H. eapply Forall_impl; [exact H|]. by intros [].
Qed.

Lemma transaction_after_logs w w0 logs payload b m o w' :
  Forall (fun e => is_log e = true) logs ->
  trace w0 = trace w ++ logs -> next_fd w0 = next_fd w ->
  transaction w0 payload b m o w' -> transaction w payload b m o w'.
Proof.
  intros Hl Ht Hn H. inversion H as
    [o' w'' pre Ht' Hf Hle Ho | o' w'' fd host port pre reads Ht' Hf Hr Hfd Ho
    | w'' fd host port pre reads Ht' Hf Hr Hlen Hfd]; subst.
  - apply (tx_unconnected w payload b m _ _ (logs ++ pre));
      [rewrite Ht', Ht, <- !app_assoc; done | | lia | done].
    rewrite Forall_app, <- Hn. split; [by apply logs_are_attempts|done].
  - apply (tx_interrupted w payload b m _ _ fd host port (logs ++ pre) reads);
      [rewrite Ht', Ht, <- !app_assoc; done | | done | lia | done].
    rewrite Forall_app, <- Hn. split; [by apply logs_are_attempts|done].
  - apply (tx_completed w payload b m _ fd host port (logs ++ pre) reads);
      [rewrite Ht', Ht, <- !app_assoc; done | | done | done | lia].
    rewrite Forall_app, <- Hn. split; [by apply logs_are_attempts|done].
Qed.

(** Every public operation is one transaction on its payload. *)
Lemma perform_transaction self r w o w' :
  perform self r w = (o, w') ->
  exists o1,
    transaction w (payload_of r) (buffer_of r) (max_size_of r) o1 w' /\
    match o1 with
    | Ret _ => True
    | Raise e => o = Raise e
    | Block => o = Block
    end.
Proof.
  intros (logs & w0 & o1 & Hl & Ht & Hn & _ & Hs & Ho)%perform_cases.
  exists o1. split; [|done].
  eapply transaction_after_logs; eauto. by apply send_receive_transaction in Hs.
Qed.

End Operations.

(** ** What a transaction lets one observe *)

Section Observed.
Context {RT : Runtime}.
Import Py.

Lemma sent_app a b : sent (a ++ b) = sent a ++ sent b.
Proof. apply omap_app. Qed.

Lemma chunks_app a b : chunks (a ++ b) = chunks a ++ chunks b.
Proof. apply omap_app. Qed.

Lemma closed_app a b : closed (a ++ b) = closed a ++ closed b.
Proof. apply omap_app. Qed.

Lemma within_weaken lo hi lo' hi' evs :
  lo' <= lo -> hi <= hi' ->
  Forall (fun e => within lo hi e = true) evs ->
  Forall (fun e => within lo' hi' e = true) evs.
Proof.
  intros Hlo Hhi H. eapply Forall_impl; [exact H|]. intros e. unfold within.
  destruct (socket_of e); [|done].
  rewrite !andb_true_iff, !Nat.leb_le, !Nat.ltb_lt. lia.
Qed.

Lemma reads_within fd b reads :
  Forall (fun e => recv_on fd b e = true) reads ->
  Forall (fun e => within fd (S fd) e = true) reads /\
  length (chunks reads) = length reads.
Proof.
  induction 1 as [|e reads He _ [IH1 IH2]]; [done|].
  destruct e as [| | | | | f n c | | | |]; try done. simpl in He.
  rewrite !andb_true_iff, Nat.eqb_eq in He. destruct He as [[-> _] _].
  split; [|simpl; by rewrite IH2]. constructor; [|done].
  unfold within; simpl. rewrite andb_true_iff, Nat.leb_le, Nat.ltb_lt. lia.
Qed.

Lemma opening_within fd host port payload :
  Forall (fun e => within fd (S fd) e = true) (opening fd host port payload).
Proof.
  repeat constructor; unfold within; simpl;
    rewrite andb_true_iff, Nat.leb_le, Nat.ltb_lt; lia.
Qed.

(** What the three endings of a transaction show in the trace. *)
Lemma transaction_observed w payload b m o w' :
  transaction w payload b m o w' ->
  next_fd w <= next_fd w' /\
  Forall (fun e => within (next_fd w) (next_fd w') e = true) (new_events w w') /\
  ((sent (new_events w w') = [] \/ sent (new_events w w') = [payload]) /\
   closed (new_events w w') = [] /\ not_ret o
   \/
   sent (new_events w w') = [payload] /\
   lifecycle w w' payload b /\
   length (chunks (new_events w w')) = round_cap m b /\
   o = if utf8_valid (received (new_events w w'))
       then Ret (received (new_events w w')) else Raise UnicodeDecodeError).
Proof.
  intros H. inversion H as
    [o' w'' pre Ht Hf Hle Ho | o' w'' fd host port pre reads Ht Hf Hr Hfd Ho
    | w'' fd host port pre reads Ht Hf Hr Hlen Hfd]; subst.
  - rewrite (new_events_app _ _ _ Ht).
    destruct (attempts_silent _ _ _ Hf) as (Hs & Hc & Hcl & _ & Hw).
    split; [done|]. split; [done|]. left. rewrite Hs, Hcl. auto.
  - rewrite (new_events_app _ _ _ Ht). destruct Hfd as [Hfd ->].
    destruct (attempts_silent _ _ _ Hf) as (Hs & Hc & Hcl & _ & Hw).
    destruct (reads_silent _ _ _ Hr) as (Hs' & Hcl' & _ & _).
    destruct (reads_within _ _ _ Hr) as [Hw' _].
    split; [lia|]. split.
    { rewrite !Forall_app. split; [|split].
      - eapply within_weaken; [| |exact Hw]; lia.
      - eapply within_weaken; [| |apply opening_within]; lia.
      - eapply within_weaken; [| |exact Hw']; lia. }
    left. rewrite !sent_app, !closed_app, Hs, Hs', Hcl, Hcl'. simpl. auto.
  - rewrite (new_events_app _ _ _ Ht). destruct Hfd as [Hfd Hn].
    destruct (attempts_silent _ _ _ Hf) as (Hs & Hc & Hcl & _ & Hw).
    destruct (reads_silent _ _ _ Hr) as (Hs' & Hcl' & _ & _).
    destruct (reads_within _ _ _ Hr) as [Hw' Hlc].
    assert (Hch : chunks (pre ++ opening fd host port payload ++ reads
                          ++ [EvClose fd]) = chunks reads).
    { rewrite !chunks_app, Hc. simpl. by rewrite app_nil_r. }
    split; [lia|]. split.
    { rewrite Hn, !Forall_app. split; [|split; [|split]].
      - eapply within_weaken; [| |exact Hw]; lia.
      - eapply within_weaken; [| |apply opening_within]; lia.
      - eapply within_weaken; [| |exact Hw']; lia.
      - repeat constructor. unfold within; simpl.
        rewrite andb_true_iff, Nat.leb_le, Nat.ltb_lt. lia. }
    right. split; [|split; [|split]].
    + rewrite !sent_app, Hs, Hs'. done.
    + exists fd, host, port, pre, reads.
      rewrite (new_events_app _ _ _ Ht). done.
    + rewrite Hch. congruence.
    + unfold received. by rewrite Hch.
Qed.

End Observed.

(** ** The claims *)

Section Claims.
Context {RT : Runtime}.
Import Py.

Lemma run_message_run_document p g y pen :
  run_message p g y pen = run_document p g y pen.
Proof.
  unfold run_message, run_document, optional_member, member, array, join_floats,
    float_of.
  destruct g, y, pen; rewrite ?append_assoc; reflexivity.
Qed.



(** *** How an operation ends *)










(** A transaction whose first connection attempt is accepted writes its
    payload, on the socket it opened. *)
Lemma send_receive_accepted self host port payload b m w peer rest o w' :
  has_address self host port ->
  net w = Some peer :: rest ->
  __send_receive_data self payload b m w = (o, w') ->
  sent (new_events w w') = [payload] /\
  connect_attempts (new_events w w') = [true].
Proof.
  intros Ha Hnet H. unfold __send_receive_data in H. unfold bind at 1 in H.
  destruct (obtain_first_accepted _ _ _ _ _ _ Ha Hnet)
    as (w1 & Ho & Ht & Hn & Hs).
  rewrite Ho in H.
  destruct (exchange_cases _ _ _ _ _ _ _ (ex_intro _ peer Hs) H)
    as (reads & Hfr & _ & [[Ht' _]|(Ht' & _ & _)]);
    destruct (reads_silent _ _ _ Hfr) as (Hsr & _ & Hcr & _);
    rewrite Ht, <- app_assoc in Ht'; rewrite (new_events_app _ _ _ Ht');
    unfold connect_attempts in *; unfold sent in *;
    rewrite !omap_app, ?Hsr, ?Hcr; done.
Qed.

(** Once the server accepts the connection, [call] writes the request it
    built, whatever the arguments. *)
Lemma call_writes_run_message self host port p g y pen b m w peer rest :
  has_address self host port ->
  net w = Some peer :: rest ->
  sent (new_events w (snd (call self p g y pen b m w)))
    = [run_message p g y pen].
Proof.
  intros Ha Hnet. rewrite call_eq.
  set (w0 := emit _ w).
  destruct (__send_receive_data _ _ _ _ w0) as [o1 w1] eqn:Hs.
  assert (Hsent : sent (new_events w0 w1) = [run_message p g y pen]).
  { by eapply (send_receive_accepted _ _ _ _ _ _ w0). }
  apply send_receive_transaction in Hs.
  assert (exists evs, trace w1 = trace w0 ++ evs) as [evs Hevs].
  { inversion Hs; eauto. }
  rewrite (new_events_app _ _ _ Hevs) in Hsent.
  assert (Hn : new_events w w1 =
               EvLog DEBUG "Sending request to TCP/IP server" :: evs).
  { apply new_events_app. rewrite Hevs. unfold w0; simpl.
    by rewrite <- app_assoc. }
  destruct o1 as [d|e|]; [|simpl; rewrite Hn; exact Hsent
                          |simpl; rewrite Hn; exact Hsent].
  destruct (parse_json d) as [doc|];
    [destruct (new_SolverResponse doc)|]; simpl; rewrite Hn; exact Hsent.
Qed.

(** C4, as the code has it. [call] does not validate its parameters: for
    every parameter sequence, the empty one included, the request is
    encoded and, when the server accepts the connection, written to the
    socket; the empty sequence is sent as the empty [parameter] array. *)
Theorem call_sends_any_parameters self host port p g y pen b m w peer rest :
  has_address self host port ->
  net w = Some peer :: rest ->
  sent (new_events w (snd (call self p g y pen b m w)))
    = [run_message p g y pen] /\
  run_message [] None None None =
    "{" +:+ quoted "Run" +:+ " : {" +:+ quoted "parameter" +:+ ": []}}".
Proof.
  intros Ha Hnet. split; [|done].
  by apply (call_writes_run_message self host port p g y pen b m w peer rest).
Qed.

End Claims.

Section MoreClaims.
Context {RT : Runtime}.
Import Py.

(** C6. When the target port already accepts connections, [start] fails
    with the port-unavailable error: the probing connect is all it does, no
    launch thread is started and no server process is spawned. *)
Theorem start_fails_when_port_is_taken self path host port w peer rest :
  __optimizer_path self = Some path ->
  has_address self host port ->
  net w = Some peer :: rest ->
  exists w',
    start self w =
      (Raise (Exception ("Port " +:+ str_of_Z port +:+ " not available")), w') /\
    new_events w w' =
      [EvSocket (next_fd w); EvConnect (next_fd w) host port true] /\
    existsb is_spawn (new_events w w') = false.
Proof.
  intros Hp (tcp & Ht & Hip & Hport) Hnet.
  unfold start. rewrite Hp. unfold __check_if_server_is_running.
  unfold bind at 1. rewrite !bind_getitem, Ht, bind_getitem, Hip.
  rewrite bind_getitem, Ht, bind_getitem, Hport.
  unfold bind at 1, socket_socket. unfold bind at 1, connect_ex, connect.
  simpl. rewrite Hnet. unfold ret at 1. simpl.
  rewrite bind_getitem, Ht, bind_getitem, Hport. unfold bind, format_d, ret, raise.
  eexists. split; [reflexivity|].
  assert (Hn : forall w', trace w' = trace w ++
                [EvSocket (next_fd w); EvConnect (next_fd w) host port true] ->
              new_events w w' =
                [EvSocket (next_fd w); EvConnect (next_fd w) host port true])
    by (intros w'; apply new_events_app).
  rewrite Hn; [done|]. simpl. by rewrite <- app_assoc.
Qed.

(** A transaction against a server that refuses ten attempts in a row. *)
Lemma send_receive_refused self host port payload b m w :
  has_address self host port ->
  all_refused 10 (net w) = true ->
  exists w',
    __send_receive_data self payload b m w = (Raise ConnectionRefusedError, w') /\
    trace w' = trace w ++ refused_attempts host port 1 (next_fd w) 9
                 ++ [EvSocket (next_fd w + 9);
                     EvConnect (next_fd w + 9) host port false].
Proof.
  intros Ha Hr.
  destruct (retry_all_refused self host port 1 9 w Ha Hr) as (w' & Hw' & Ht).
  exists w'. split; [|done].
  unfold __send_receive_data, __obtain_socket_connection, retry.
  change (10 - 1) with 9. unfold bind at 1. by rewrite Hw'.
Qed.

(** C7. Connection establishment is a bounded retry with a fixed delay:
    against a server that refuses the connection, every transaction makes
    exactly ten attempts, sleeps one second between two attempts (nine
    sleeps of the same length, no backoff, no jitter), writes nothing, and
    fails with the connection error of the last attempt. *)
Theorem unreachable_server_exhausts_the_retries self host port r w :
  has_address self host port ->
  all_refused 10 (net w) = true ->
  exists w',
    perform self r w = (Raise ConnectionRefusedError, w') /\
    connect_attempts (new_events w w') = replicate 10 false /\
    sleeps (new_events w w') = replicate 9 1%Z /\
    sent (new_events w w') = [].
Proof.
  intros Ha Hr. destruct r as [| |p g y pen b m]; simpl.
  - destruct (send_receive_refused self host port ping_request
                default_buffer_size default_max_data_size w Ha Hr)
      as (w' & Hw' & Ht).
    exists w'. unfold bind. rewrite ping_eq, Hw'.
    rewrite (new_events_app _ _ _ Ht). done.
  - set (w0 := emit (EvLog INFO "Killing server") w).
    destruct (send_receive_refused self host port kill_request
                default_buffer_size default_max_data_size w0 Ha Hr)
      as (w' & Hw' & Ht).
    exists w'. rewrite kill_eq. fold w0. rewrite Hw'.
    unfold w0 in Ht; simpl in Ht. rewrite <- app_assoc in Ht.
    rewrite (new_events_app _ _ _ Ht). done.
  - set (w0 := emit (EvLog DEBUG "Sending request to TCP/IP server") w).
    destruct (send_receive_refused self host port (run_message p g y pen)
                b m w0 Ha Hr) as (w' & Hw' & Ht).
    exists w'. unfold bind. rewrite call_eq. fold w0. rewrite Hw'.
    unfold w0 in Ht; simpl in Ht. rewrite <- app_assoc in Ht.
    rewrite (new_events_app _ _ _ Ht). done.
Qed.

(** C9. When the bytes a completed transaction received do not decode to
    one well-formed document (whatever was read, a read cut at the round
    cap included), [ping] and [call] fail with the decoding error and return
    no response. *)
Theorem undecodable_response_is_an_error self r w o w' :
  perform self r w = (o, w') ->
  r <> Kill ->
  closed (new_events w w') <> [] ->
  undecodable (received (new_events w w')) ->
  decode_error o.
Proof.
  intros H Hr Hc Hu. destruct r as [| |p g y pen b m]; [|done|]; simpl in H;
    unfold bind in H.
  - rewrite ping_eq in H.
    destruct (__send_receive_data _ _ _ _ w) as [o1 w1] eqn:Hs.
    apply send_receive_transaction, transaction_observed in Hs.
    assert (w' = w1) as -> by (destruct o1 as [d|e|];
      [destruct (parse_json d)| |]; by injection H).
    destruct Hs as (_ & _ & [(_ & Hcl & _)|(_ & _ & _ & ->)]); [done|].
    destruct Hu as [Hu|Hu].
    + rewrite Hu in H. injection H as <-. by left.
    + destruct (utf8_valid _); [rewrite Hu in H|]; injection H as <-;
        [by right|by left].
  - rewrite call_eq in H.
    set (w0 := emit _ w) in H.
    destruct (__send_receive_data _ _ _ _ w0) as [o1 w1] eqn:Hs.
    apply send_receive_transaction in Hs.
    apply (transaction_after_logs w w0
             [EvLog DEBUG "Sending request to TCP/IP server"]) in Hs;
      [|by repeat constructor|done|done].
    apply transaction_observed in Hs.
    assert (w' = w1) as ->.
    { destruct o1 as [d|e|]; [destruct (parse_json d) as [doc|];
        [destruct (new_SolverResponse doc)|]| |]; by injection H. }
    destruct Hs as (_ & _ & [(_ & Hcl & _)|(_ & _ & _ & ->)]); [done|].
    destruct Hu as [Hu|Hu].
    + rewrite Hu in H. injection H as <-. by left.
    + destruct (utf8_valid _); [rewrite Hu in H|]; injection H as <-;
        [by right|by left].
Qed.

Lemma occurs_in_refl s : occurs_in s s.
Proof. exists EmptyString, EmptyString. by rewrite append_nil_r. Qed.

Lemma occurs_in_app_l t a s : occurs_in t s -> occurs_in t (a +:+ s).
Proof.
  intros (pre & post & ->). exists (a +:+ pre), post. by rewrite append_assoc.
Qed.

Lemma occurs_in_app_r t a s : occurs_in t s -> occurs_in t (s +:+ a).
Proof.
  intros (pre & post & ->). exists pre, (post +:+ a).
  by rewrite !append_assoc.
Qed.

Lemma occurs_in_trans a b c : occurs_in a b -> occurs_in b c -> occurs_in a c.
Proof.
  intros (p1 & q1 & ->) (p2 & q2 & ->). exists (p2 +:+ p1), (q1 +:+ q2).
  by rewrite !append_assoc.
Qed.

Lemma occurs_in_join (f : float -> string) x xs :
  In x xs -> occurs_in (f x) (String.concat "," (map f xs)).
Proof.
  induction xs as [|y [|z xs] IH]; [done| |].
  - intros [->|[]]. apply occurs_in_refl.
  - intros [->|Hin].
    + change (occurs_in (f x) (f x +:+ "," +:+ String.concat "," (map f (z :: xs)))).
      apply occurs_in_app_r, occurs_in_refl.
    + change (occurs_in (f x) (f y +:+ "," +:+ String.concat "," (map f (z :: xs)))).
      by apply occurs_in_app_l, occurs_in_app_l, IH.
Qed.

Lemma token_occurs_in_str x :
  non_finite x = true -> occurs_in (non_finite_token x) (str x).
Proof.
  unfold non_finite, non_finite_token, str, str_float.
  destruct (PrimFloat.classify x); try done; intros _.
  - apply occurs_in_refl.
  - exists "-", EmptyString. done.
  - apply occurs_in_refl.
Qed.

Lemma token_occurs_in_array x xs :
  non_finite x = true -> In x xs ->
  occurs_in (non_finite_token x) (array xs).
Proof.
  intros Hx Hin. eapply occurs_in_trans; [by apply token_occurs_in_str|].
  unfold array. apply occurs_in_app_l, occurs_in_app_r. by apply occurs_in_join.
Qed.

(** C10. The encoder of the run request validates no value: a non-finite
    float among the parameters, the initial guess or the initial
    multipliers is rendered by [str] like any other, so the request holds
    the token [inf] or [nan] for it, and this request is what [call] writes
    once the server accepts the connection. *)
Theorem non_finite_values_are_sent_verbatim
    self host port p g y pen b m x w peer rest :
  has_address self host port ->
  net w = Some peer :: rest ->
  non_finite x = true ->
  In x p \/ (exists l, g = Some l /\ In x l) \/ (exists l, y = Some l /\ In x l) ->
  occurs_in (non_finite_token x) (run_message p g y pen) /\
  sent (new_events w (snd (call self p g y pen b m w))) = [run_message p g y pen].
Proof.
  intros Ha Hnet Hx Hin. split.
  - rewrite run_message_run_document. unfold run_document.
    destruct Hin as [Hin|[(l & -> & Hin)|(l & -> & Hin)]].
    + do 3 apply occurs_in_app_l. apply occurs_in_app_r.
      unfold member. do 2 apply occurs_in_app_l.
      by apply token_occurs_in_array.
    + do 4 apply occurs_in_app_l. apply occurs_in_app_r.
      unfold optional_member, member. do 3 apply occurs_in_app_l.
      by apply token_occurs_in_array.
    + do 5 apply occurs_in_app_l. apply occurs_in_app_r.
      unfold optional_member, member. do 3 apply occurs_in_app_l.
      by apply token_occurs_in_array.
  - by apply (call_writes_run_message self host port p g y pen b m w peer rest).
Qed.

End MoreClaims.

(** ** More on the read loop, on [kill] and on the version check *)

Section Supplements.
Context {RT : Runtime}.
Import Py.

Lemma length_append (a b : string) :
  String.length (a +:+ b) = String.length a + String.length b.
Proof.
  induction a as [|c a IH]; [reflexivity|].
  change (S (String.length (a +:+ b)) = S (String.length a) + String.length b).
  by rewrite IH.
Qed.

Lemma received_length fd b reads :
  Forall (fun e => recv_on fd b e = true) reads ->
  String.length (received reads) <= length reads * Z.to_nat b.
Proof.
  induction 1 as [|e reads He _ IH]; [done|].
  destruct e as [| | | | | f n c | | | |]; try done. simpl in He.
  rewrite !andb_true_iff, Nat.leb_le in He. destruct He as [_ Hc].
  change (String.length (c +:+ received reads)
            <= Z.to_nat b + length reads * Z.to_nat b).
  rewrite length_append. lia.
Qed.

(** The round cap bounds what a transaction can take in: a completed
    transaction made exactly [round_cap] reads, whenever the peer closed,
    and so received at most [round_cap] buffers of bytes; a longer answer
    is cut there. *)
Lemma completed_transaction_reads_to_the_cap self r w o w' :
  perform self r w = (o, w') ->
  closed (new_events w w') <> [] ->
  length (chunks (new_events w w')) = round_cap (max_size_of r) (buffer_of r) /\
  String.length (received (new_events w w'))
    <= round_cap (max_size_of r) (buffer_of r) * Z.to_nat (buffer_of r).
Proof.
  intros (o1 & Htx & _)%perform_transaction Hc.
  destruct (transaction_observed _ _ _ _ _ _ Htx)
    as (_ & _ & [(_ & Hcl & _)|(_ & Hl & Hlen & _)]); [done|].
  split; [done|].
  destruct Hl as (fd & host & port & pre & reads & Hn & Hf & Hr & _).
  destruct (attempts_silent _ _ _ Hf) as (_ & Hcp & _).
  destruct (reads_within _ _ _ Hr) as [_ Hlr].
  assert (Hch : chunks (new_events w w') = chunks reads).
  { rewrite Hn, !chunks_app, Hcp. simpl. by rewrite app_nil_r. }
  unfold received at 1. rewrite Hch. fold (received reads).
  rewrite <- Hlen, Hch, Hlr. by eapply received_length.
Qed.

(** [kill] has no decoding step: whatever text the transaction returns,
    [kill] returns. *)
Lemma kill_ignores_the_response self w data w' :
  __send_receive_data self kill_request default_buffer_size
    default_max_data_size (emit (EvLog INFO "Killing server") w) = (Ret data, w') ->
  kill self w = (Ret tt, w').
Proof. intros H. by rewrite kill_eq, H. Qed.

(** In local mode a version different from the installed one is logged,
    twice, and the construction goes on. *)
Lemma version_skew_is_logged path details build (version : scalar) w w1 :
  __load_tcp_details path w = (Ret details, w1) ->
  details !! "build" = Some build ->
  build !! "opengen_version" = Some version ->
  scalar_eqb (PStr (installed_version w1)) version = false ->
  exists w',
    __init__ (Some path) None None w =
      (Ret {| __optimizer_path := Some path;
              __optimizer_details_from_yml := details |}, w') /\
    trace w' = trace w1 ++
      [EvLog WARNING
         "the target optimizer was build with a different version of opengen (%s)";
       EvLog WARNING "you are running opengen version %s"].
Proof.
  intros Hl Hb Hv Hne. unfold __init__. unfold bind at 1. rewrite Hl.
  rewrite bind_getitem, Hb, bind_getitem, Hv.
  unfold bind, Py.opengen_version. rewrite Hne. simpl.
  eexists. split; [reflexivity|]. simpl. by rewrite <- app_assoc.
Qed.

End Supplements.

(** ** Construction *)

(** C1 (the code departs from the claim). Constructing the client from an
    explicit host and port alone never succeeds: the dictionary built for
    the remote endpoint has the single key [tcp], and the version check
    that follows looks up [build] in it, so the constructor raises
    [KeyError('build')] before any warning could be logged; the world is
    left as it was. *)
Theorem remote_construction_raises_KeyError (ip port : scalar) (w : World) :
  __init__ None (Some ip) (Some port) w = (Raise (KeyError "build"), w).
Proof.
  unfold __init__, bind, ret, Py.getitem.
  rewrite lookup_singleton_ne by discriminate.
  reflexivity.
Qed.

(** C5, refuted as stated: with a launch path and a host and port, the
    constructor succeeds; it loads the descriptor and ignores the host and
    the port. *)
Lemma construction_with_both_succeeds :
  fst (__init__ (Some "/opt") (Some (PStr "10.0.0.1")) (Some (PInt 9000))
         (Demo.world [])) = Ret Demo.client.
Proof. vm_compute. reflexivity. Qed.

(** C5, as the code has it. Construction with neither a launch path nor
    a complete host and port fails with [Illegal arguments]; with a launch
    path the constructor takes the local branch whatever host and port are:
    it behaves exactly as without them. *)
Theorem construction_modes path ip port w :
  __init__ None None port w = (Raise (Exception "Illegal arguments"), w) /\
  __init__ None ip None w = (Raise (Exception "Illegal arguments"), w) /\
  __init__ (Some path) ip port w = __init__ (Some path) None None w.
Proof.
  split; [reflexivity|]. split; [by destruct ip|reflexivity].
Qed.

(** ** The read loop *)

(** C2 (the code departs from the claim). The read loop does not stop when
    the peer closes: against a server that answers and closes at once,
    [ping] gets the whole answer with its first read, the empty chunk of
    the closed connection with the second, and goes on reading empty chunks
    until the round cap of 2048 reads is used up. *)
Theorem ping_reads_on_after_the_peer_closed :
  round_cap default_max_data_size default_buffer_size = 2048 /\
  fst (ping (RT := Demo.rt) Demo.client (Demo.world [Some Demo.server]))
    = Ret Demo.pong /\
  chunks (trace (snd (ping (RT := Demo.rt) Demo.client
                        (Demo.world [Some Demo.server]))))
    = Demo.pong :: replicate 2047 EmptyString.
Proof. vm_compute. repeat split. Qed.

(** C4, refuted as stated: a call with the empty parameter sequence does
    not fail; it performs the transaction, sending the empty array. *)
Lemma call_with_no_parameters_is_sent :
  fst (call (RT := Demo.rt) Demo.client [] None None None 4096 1048576
         (Demo.world [Some Demo.server])) = Ret Demo.pong /\
  sent (trace (snd (call (RT := Demo.rt) Demo.client [] None None None
                      4096 1048576 (Demo.world [Some Demo.server]))))
    = ["{" +:+ quoted "Run" +:+ " : {" +:+ quoted "parameter" +:+ ": []}}"].
Proof. vm_compute. split; reflexivity. Qed.


(** ** The claims at concrete inputs *)



Lemma call_sends_any_parameters_witness :
  has_address Demo.client "127.0.0.1" 8333 /\
  net (Demo.world [Some Demo.server]) = Some Demo.server :: [] /\
  sent (new_events (Demo.world [Some Demo.server])
          (snd (call (RT := Demo.rt) Demo.client [] None None None
                  default_buffer_len default_max_data_size
                  (Demo.world [Some Demo.server]))))
    = [run_message (RT := Demo.rt) [] None None None].
Proof.
  assert (Ha : has_address Demo.client "127.0.0.1" 8333).
  { exists {[ "ip" := PStr "127.0.0.1"; "port" := PInt 8333 ]}.
    repeat split; vm_compute; reflexivity. }
  split; [exact Ha|]. split; [reflexivity|].
  exact (proj1 (call_sends_any_parameters (RT := Demo.rt) Demo.client
                  "127.0.0.1" 8333 [] None None None default_buffer_len
                  default_max_data_size (Demo.world [Some Demo.server])
                  Demo.server [] Ha eq_refl)).
Defined.

Lemma start_fails_when_port_is_taken_witness :
  __optimizer_path Demo.client = Some "/opt" /\
  has_address Demo.client "127.0.0.1" 8333 /\
  net (Demo.world [Some Demo.server]) = Some Demo.server :: [] /\
  exists w',
    start (RT := Demo.rt) Demo.client (Demo.world [Some Demo.server]) =
      (Raise (Exception ("Port " +:+ Py.str_of_Z 8333 +:+ " not available")),
       w') /\
    new_events (Demo.world [Some Demo.server]) w' =
      [EvSocket 3; EvConnect 3 "127.0.0.1" 8333 true] /\
    existsb is_spawn (new_events (Demo.world [Some Demo.server]) w') = false.
Proof.
  assert (Ha : has_address Demo.client "127.0.0.1" 8333).
  { exists {[ "ip" := PStr "127.0.0.1"; "port" := PInt 8333 ]}.
    repeat split; vm_compute; reflexivity. }
  split; [reflexivity|]. split; [exact Ha|]. split; [reflexivity|].
  exact (start_fails_when_port_is_taken (RT := Demo.rt) Demo.client "/opt"
           "127.0.0.1" 8333 (Demo.world [Some Demo.server]) Demo.server []
           eq_refl Ha eq_refl).
Defined.

Lemma unreachable_server_exhausts_the_retries_witness :
  has_address Demo.client "127.0.0.1" 8333 /\
  all_refused 10 (net (Demo.world [])) = true /\
  exists w',
    perform (RT := Demo.rt) Demo.client Ping (Demo.world [])
      = (Raise ConnectionRefusedError, w') /\
    connect_attempts (new_events (Demo.world []) w') = replicate 10 false /\
    sleeps (new_events (Demo.world []) w') = replicate 9 1%Z /\
    sent (new_events (Demo.world []) w') = [].
Proof.
  assert (Ha : has_address Demo.client "127.0.0.1" 8333).
  { exists {[ "ip" := PStr "127.0.0.1"; "port" := PInt 8333 ]}.
    repeat split; vm_compute; reflexivity. }
  split; [exact Ha|]. split; [reflexivity|].
  exact (unreachable_server_exhausts_the_retries (RT := Demo.rt) Demo.client
           "127.0.0.1" 8333 Ping (Demo.world []) Ha eq_refl).
Defined.

Lemma undecodable_response_is_an_error_witness :
  perform (RT := Demo.rt) Demo.client Demo.short_run
    (Demo.world [Some Demo.server])
    = (Raise JSONDecodeError, Demo.after_short_run) /\
  Demo.short_run <> Kill /\
  closed (new_events (Demo.world [Some Demo.server]) Demo.after_short_run)
    <> [] /\
  undecodable (RT := Demo.rt)
    (received (new_events (Demo.world [Some Demo.server])
                 Demo.after_short_run)) /\
  decode_error (Raise JSONDecodeError : outcome unit).
Proof.
  assert (H : perform (RT := Demo.rt) Demo.client Demo.short_run
                (Demo.world [Some Demo.server])
              = (Raise JSONDecodeError, Demo.after_short_run))
    by (vm_compute; reflexivity).
  assert (Hk : Demo.short_run <> Kill) by discriminate.
  assert (Hc : closed (new_events (Demo.world [Some Demo.server])
                         Demo.after_short_run) <> [])
    by (vm_compute; discriminate).
  assert (Hu : undecodable (RT := Demo.rt)
                 (received (new_events (Demo.world [Some Demo.server])
                              Demo.after_short_run)))
    by (right; vm_compute; reflexivity).
  split; [exact H|]. split; [exact Hk|]. split; [exact Hc|].
  split; [exact Hu|].
  exact (undecodable_response_is_an_error (RT := Demo.rt) Demo.client
           Demo.short_run _ _ _ H Hk Hc Hu).
Defined.

Lemma non_finite_values_are_sent_verbatim_witness :
  has_address Demo.client "127.0.0.1" 8333 /\
  net (Demo.world [Some Demo.server]) = Some Demo.server :: [] /\
  non_finite PrimFloat.infinity = true /\
  In PrimFloat.infinity Demo.wild /\
  occurs_in "inf" (run_message (RT := Demo.rt) Demo.wild None None None).
Proof.
  assert (Ha : has_address Demo.client "127.0.0.1" 8333).
  { exists {[ "ip" := PStr "127.0.0.1"; "port" := PInt 8333 ]}.
    repeat split; vm_compute; reflexivity. }
  assert (Hin : In PrimFloat.infinity Demo.wild) by (right; left; reflexivity).
  split; [exact Ha|]. split; [reflexivity|]. split; [reflexivity|].
  split; [exact Hin|].
  exact (proj1 (non_finite_values_are_sent_verbatim (RT := Demo.rt)
                  Demo.client "127.0.0.1" 8333 Demo.wild None None None
                  default_buffer_len default_max_data_size
                  PrimFloat.infinity (Demo.world [Some Demo.server])
                  Demo.server [] Ha eq_refl eq_refl (or_introl Hin))).
Defined.

(** ** Computations that stay off the network *)

Section Confined.
Context {RT : Runtime}.
Import Py.

Lemma confined_ret {A} P (a : A) : confined P (ret a).
Proof.
  intros w o w' [= <- <-]. exists []. rewrite app_nil_r. by repeat split.
Qed.

Lemma confined_raise {A} P e : confined P (raise e : M A).
Proof.
  intros w o w' [= <- <-]. exists []. rewrite app_nil_r. by repeat split.
Qed.

Lemma confined_tell P e : P e = true -> confined P (tell e).
Proof.
  intros He w o w' [= <- <-]. exists [e]. repeat split. by repeat constructor.
Qed.

Lemma confined_getitem {V} P (d : gmap string V) k : confined P (getitem d k).
Proof.
  unfold getitem. destruct (d !! k); [apply confined_ret|apply confined_raise].
Qed.

Lemma confined_bind {A B} P (m : M A) (f : A -> M B) :
  confined P m -> (forall a, confined P (f a)) -> confined P (bind m f).
Proof.
  intros Hm Hf w o w' H. unfold bind in H.
  destruct (m w) as [[a|e|] w1] eqn:Hmw;
    destruct (Hm _ _ _ Hmw) as (evs & Ht & HP & Hn & Hnet & Hs & Hfi).
  - destruct (Hf a _ _ _ H) as (evs' & Ht' & HP' & Hn' & Hnet' & Hs' & Hfi').
    exists (evs ++ evs'). rewrite Ht', Ht, <- app_assoc, Forall_app.
    repeat split; try congruence; done.
  - injection H as <- <-. by exists evs.
  - injection H as <- <-. by exists evs.
Qed.

Lemma confined_load_yaml P path : confined P (load_yaml path).
Proof.
  intros w o w' H. unfold load_yaml in H.
  destruct (files w !! path); injection H as <- <-; exists [];
    rewrite app_nil_r; by repeat split.
Qed.

Lemma confined_opengen_version P : confined P Py.opengen_version.
Proof.
  intros w o w' [= <- <-]. exists []. rewrite app_nil_r. by repeat split.
Qed.

Lemma confined_events {A} P (m : M A) w :
  confined P m ->
  Forall (fun e => P e = true) (new_events w (snd (m w))) /\
  next_fd (snd (m w)) = next_fd w /\ net (snd (m w)) = net w.
Proof.
  intros Hm. destruct (m w) as [o w'] eqn:H.
  destruct (Hm _ _ _ H) as (evs & Ht & HP & Hn & Hnet & _). simpl.
  by rewrite (new_events_app _ _ _ Ht).
Qed.

Ltac confine :=
  repeat first
    [ apply confined_ret | apply confined_raise | apply confined_getitem
    | apply confined_load_yaml | apply confined_opengen_version
    | apply confined_tell; reflexivity
    | apply confined_bind; [|intros ?]
    | match goal with
      | |- confined _ (match ?x with _ => _ end) => destruct x
      | |- confined _ (if ?x then _ else _) => destruct x
      end ].

(** The launch thread only logs and starts a process. *)
Lemma threaded_start_confined self : confined launch_event (__threaded_start self).
Proof.
  unfold __threaded_start, logging, str_add, popen. confine.
Qed.

(** Loading the descriptor and constructing the client only log. *)
Lemma load_tcp_details_confined path : confined is_log (__load_tcp_details path).
Proof. unfold __load_tcp_details, logging. confine. Qed.

Lemma load_tcp_details_info path : confined is_info (__load_tcp_details path).
Proof. unfold __load_tcp_details, logging. confine. Qed.

Lemma init_confined path ip port : confined is_log (__init__ path ip port).
Proof.
  unfold __init__, logging. apply confined_bind.
  - destruct path; [apply load_tcp_details_confined|]. confine.
  - intros d. confine.
Qed.

End Confined.

(** ** Construction, in full *)

Section ConstructionInFull.
Context {RT : Runtime}.
Import Py.

Lemma logs_have_no_socket evs :
  Forall (fun e => is_log e = true) evs ->
  sockets evs = [] /\ existsb is_spawn evs = false /\ sent evs = [].
Proof.
  induction 1 as [|e evs He _ (IH1 & IH2 & IH3)]; [done|].
  destruct e; try done.
Qed.

(** X1. Constructing the client never touches the network: whatever the
    arguments and the outcome, it only writes log lines; it opens no
    socket, starts nothing, and uses up no connection attempt. *)
Theorem construction_stays_off_the_network path ip port w :
  Forall (fun e => is_log e = true)
    (new_events w (snd (__init__ path ip port w))) /\
  sockets (new_events w (snd (__init__ path ip port w))) = [] /\
  existsb is_spawn (new_events w (snd (__init__ path ip port w))) = false /\
  net (snd (__init__ path ip port w)) = net w /\
  next_fd (snd (__init__ path ip port w)) = next_fd w.
Proof.
  destruct (confined_events is_log (__init__ path ip port) w
              (init_confined path ip port)) as (Hl & Hn & Hnet).
  destruct (logs_have_no_socket _ Hl) as (Hs & Hsp & _).
  by repeat split.
Qed.

(** What loading the descriptor returns or raises. *)
Lemma load_tcp_details_result path w :
  fst (__load_tcp_details path w) =
  match files w !! os_path_join path "optimizer.yml" with
  | None => Raise (FileNotFoundError (os_path_join path "optimizer.yml"))
  | Some d =>
      match d !! "tcp" with
      | None => Raise (KeyError "tcp")
      | Some tcp =>
          match tcp !! "ip", tcp !! "port" with
          | None, _ => Raise (KeyError "ip")
          | Some _, None => Raise (KeyError "port")
          | Some _, Some _ => Ret d
          end
      end
  end.
Proof.
  unfold __load_tcp_details, bind, logging, tell, load_yaml, getitem, ret,
    raise; simpl.
  destruct (files w !! _) as [d|]; [|done]; simpl.
  destruct (d !! "tcp") as [tcp|]; [|done]; simpl.
  destruct (tcp !! "ip"); [|done]; simpl.
  by destruct (tcp !! "port").
Qed.

Lemma init_local_eq path ip port w :
  __init__ (Some path) ip port w =
  match __load_tcp_details path w with
  | (Ret d, w1) =>
      match d !! "build" with
      | None => (Raise (KeyError "build"), w1)
      | Some build =>
          match build !! "opengen_version" with
          | None => (Raise (KeyError "opengen_version"), w1)
          | Some v =>
              (Ret {| __optimizer_path := Some path;
                      __optimizer_details_from_yml := d |},
               if scalar_eqb (PStr (installed_version w1)) v then w1
               else emit (EvLog WARNING "you are running opengen version %s")
                      (emit (EvLog WARNING
                               "the target optimizer was build with a different version of opengen (%s)")
                         w1))
          end
      end
  | (Raise e, w1) => (Raise e, w1)
  | (Block, w1) => (Block, w1)
  end.
Proof.
  unfold __init__. unfold bind at 1.
  destruct (__load_tcp_details path w) as [[d|e|] w1]; [|done|done].
  rewrite bind_getitem. destruct (d !! "build") as [build|]; [|done].
  rewrite bind_getitem. destruct (build !! "opengen_version") as [v|]; [|done].
  unfold bind, Py.opengen_version, logging, tell, ret.
  by destruct (scalar_eqb _ v).
Qed.

(** X3. Local construction succeeds exactly when the descriptor file exists
    and holds [tcp.ip], [tcp.port] and [build.opengen_version]; the client
    then holds the launch path and the descriptor as read.  No other key
    ([build_mode], [meta]) is asked for at construction. *)
Theorem local_construction_succeeds_iff path ip port w self :
  (exists w', __init__ (Some path) ip port w = (Ret self, w')) <->
  __optimizer_path self = Some path /\
  files w !! os_path_join path "optimizer.yml"
    = Some (__optimizer_details_from_yml self) /\
  (exists tcp, __optimizer_details_from_yml self !! "tcp" = Some tcp /\
               is_Some (tcp !! "ip") /\ is_Some (tcp !! "port")) /\
  (exists build, __optimizer_details_from_yml self !! "build" = Some build /\
                 is_Some (build !! "opengen_version")).
Proof.
  rewrite init_local_eq. pose proof (load_tcp_details_result path w) as Hl.
  destruct (__load_tcp_details path w) as [o w1]. simpl in Hl. subst o.
  split.
  - intros [w' H].
    destruct (files w !! _) as [d|]; [|done].
    destruct (d !! "tcp") as [tcp|] eqn:Ht; [|done].
    destruct (tcp !! "ip") as [i|] eqn:Hi; [|done].
    destruct (tcp !! "port") as [q|] eqn:Hq; [|done].
    destruct (d !! "build") as [build|] eqn:Hb; [|done].
    destruct (build !! "opengen_version") as [v|] eqn:Hv; [|done].
    injection H as <- <-. simpl. rewrite Ht, Hb. repeat split; eauto.
  - destruct self as [p d]. simpl.
    intros (-> & -> & (tcp & -> & [i ->] & [q ->]) & (build & -> & [v ->])).
    eauto.
Qed.

(** X4. The version check is advisory: a construction that succeeds logged
    exactly two warnings when the version stamped in the descriptor differs
    from the installed one, and none when they agree. *)
Theorem version_skew_only_warns path ip port w self w' build v :
  __init__ (Some path) ip port w = (Ret self, w') ->
  __optimizer_details_from_yml self !! "build" = Some build ->
  build !! "opengen_version" = Some v ->
  warnings (new_events w w') =
    if scalar_eqb (PStr (installed_version w)) v then 0 else 2.
Proof.
  intros H Hb Hv. rewrite init_local_eq in H.
  destruct (__load_tcp_details path w) as [o w1] eqn:Hl.
  destruct (load_tcp_details_info path _ _ _ Hl)
    as (evs & Ht & HP & _).
  assert (Hi : installed_version w1 = installed_version w).
  { revert Hl. unfold __load_tcp_details, bind, logging, tell, load_yaml,
      getitem, ret, raise. simpl.
    destruct (files w !! _) as [d|]; [|by intros [= <- <-]]. simpl.
    destruct (d !! "tcp") as [tcp|]; [|by intros [= <- <-]]. simpl.
    destruct (tcp !! "ip"); [|by intros [= <- <-]]. simpl.
    destruct (tcp !! "port"); by intros [= <- <-]. }
  assert (Hw : warnings evs = 0).
  { clear -HP. induction HP as [|e evs He _ IH]; [done|].
    destruct e as [[] ?| | | | | | | | |]; try done. }
  destruct o as [d|e|]; [|done|done].
  destruct (d !! "build") as [build'|] eqn:Hb'; [|done].
  destruct (build' !! "opengen_version") as [v'|] eqn:Hv'; [|done].
  injection H as <- <-. simpl in Hb. rewrite Hb' in Hb. injection Hb as ->.
  rewrite Hv' in Hv. injection Hv as ->. rewrite Hi.
  assert (Ht' : trace (emit (EvLog WARNING "you are running opengen version %s")
                   (emit (EvLog WARNING
                      "the target optimizer was build with a different version of opengen (%s)")
                      w1)) = trace w ++ evs ++
            [EvLog WARNING
               "the target optimizer was build with a different version of opengen (%s)";
             EvLog WARNING "you are running opengen version %s"]).
  { simpl. rewrite Ht, <- !app_assoc. done. }
  assert (H2 : warnings (evs ++
            [EvLog WARNING
               "the target optimizer was build with a different version of opengen (%s)";
             EvLog WARNING "you are running opengen version %s"]) = 2).
  { unfold warnings in *. rewrite omap_app, length_app, Hw. done. }
  unfold scalar_eqb.
  destruct v as [t|z]; [destruct (String.eqb _ t)|]; cbn iota;
    rewrite ?(new_events_app _ _ _ Ht), ?(new_events_app _ _ _ Ht'); done.
Qed.

End ConstructionInFull.

(** ** Starting the server, in full *)

Section StartInFull.
Context {RT : Runtime}.
Import Py.

Lemma scalar_eqb_eq a b : scalar_eqb a b = true <-> a = b.
Proof.
  destruct a as [s|x], b as [t|y]; simpl; try (split; discriminate).
  - rewrite String.eqb_eq. split; congruence.
  - rewrite Z.eqb_eq. split; congruence.
Qed.

(** X5. The launch thread, on a complete descriptor, makes exactly one
    call to [subprocess.Popen]: the command is [cargo run -q], with
    [--release] appended exactly when [build_mode] is the text [release],
    and the working directory is [tcp_iface_<optimizer_name>] under the
    launch path. *)
Theorem threaded_start_launches self path tcp ip port build mode meta name w :
  __optimizer_path self = Some path ->
  __optimizer_details_from_yml self !! "tcp" = Some tcp ->
  tcp !! "ip" = Some ip -> tcp !! "port" = Some port ->
  __optimizer_details_from_yml self !! "build" = Some build ->
  build !! "build_mode" = Some mode ->
  __optimizer_details_from_yml self !! "meta" = Some meta ->
  meta !! "optimizer_name" = Some (PStr name) ->
  exists command,
    popens (new_events w (snd (__threaded_start self w)))
      = [(command, os_path_join path ("tcp_iface_" +:+ name))] /\
    (command = ["cargo"; "run"; "-q"; "--release"] \/
     command = ["cargo"; "run"; "-q"]) /\
    (In "--release" command <-> mode = PStr "release").
Proof.
  intros Hp Ht Hi Hq Hb Hm Hme Hn.
  assert (He : __threaded_start self w =
    (Ret tt,
     emit (EvPopen (if scalar_eqb mode (PStr "release")
                    then ["cargo"; "run"; "-q"] ++ ["--release"]
                    else ["cargo"; "run"; "-q"])
             (os_path_join path ("tcp_iface_" +:+ name)))
       (emit (EvLog INFO
                "Starting TCP/IP server at %s:%d (in a detached thread)") w))).
  { unfold __threaded_start.
    rewrite bind_getitem, Ht, bind_getitem, Hi, bind_getitem, Ht,
      bind_getitem, Hq.
    unfold bind at 1, logging, tell.
    rewrite bind_getitem, Hb, bind_getitem, Hm, bind_getitem, Hme,
      bind_getitem, Hn.
    unfold bind, str_add, ret. rewrite Hp. reflexivity. }
  rewrite He. simpl.
  exists (if scalar_eqb mode (PStr "release")
          then ["cargo"; "run"; "-q"; "--release"] else ["cargo"; "run"; "-q"]).
  split.
  { erewrite new_events_app; [|simpl; by rewrite <- app_assoc].
    simpl. by destruct (scalar_eqb mode _). }
  destruct (scalar_eqb mode (PStr "release")) eqn:E.
  - split; [by left|]. apply scalar_eqb_eq in E. split; [done|].
    intros _. simpl. tauto.
  - split; [by right|]. split.
    + simpl. intros [H|[H|[H|[]]]]; discriminate.
    + intros ->. by rewrite (proj2 (scalar_eqb_eq _ _) eq_refl) in E.
Qed.

(** The probe of the port. *)
Lemma check_cases self w :
  match __check_if_server_is_running self w with
  | (Ret running, w1) =>
      exists host port,
        has_address self host port /\
        trace w1 = trace w ++ [EvSocket (next_fd w);
                               EvConnect (next_fd w) host port running] /\
        next_fd w1 = S (next_fd w) /\
        (running = false -> net w1 = tail (net w))
  | (_, w1) =>
      trace w1 = trace w \/ trace w1 = trace w ++ [EvSocket (next_fd w)]
  end.
Proof.
  unfold __check_if_server_is_running.
  rewrite bind_getitem.
  destruct (_ !! "tcp") as [tcp|] eqn:Ht; [|by left].
  rewrite bind_getitem. destruct (tcp !! "ip") as [ip|] eqn:Hi; [|by left].
  rewrite bind_getitem, Ht, bind_getitem.
  destruct (tcp !! "port") as [port|] eqn:Hq; [|by left].
  unfold bind, socket_socket, connect_ex, connect, ret.
  destruct ip as [host|], port as [|p]; simpl; try by right.
  destruct (net w) as [|[peer|] rest] eqn:Hnet; simpl;
    exists host, p; (split; [by exists tcp|]);
    rewrite <- app_assoc; repeat split; rewrite ?Hnet; done.
Qed.

(** X6. [start] starts the server only after a failed probe: whenever it
    started the launch thread or a process, the client had a launch path
    and the very first thing it did was a connection attempt that was
    refused, followed at once by the launch. *)
Theorem start_spawns_only_after_a_failed_probe self w o w' :
  start self w = (o, w') ->
  existsb is_spawn (new_events w w') = true ->
  (exists path, __optimizer_path self = Some path) /\
  exists host port rest,
    has_address self host port /\
    new_events w w' =
      EvSocket (next_fd w) :: EvConnect (next_fd w) host port false ::
      EvLog INFO "Starting TCP/IP server thread" :: EvThreadStart :: rest.
Proof.
  intros H Hs. unfold start in H.
  destruct (__optimizer_path self) as [path|] eqn:Hp.
  2:{ injection H as <- <-. unfold new_events in Hs.
      by rewrite drop_all in Hs. }
  split; [by exists path|]. unfold bind at 1 in H.
  pose proof (check_cases self w) as Hc.
  destruct (__check_if_server_is_running self w) as [[[]|e|] w1].
  - destruct Hc as (host & port & (tcp & Ht & Hi & Hq) & Htr & _).
    rewrite bind_getitem, Ht, bind_getitem, Hq in H.
    unfold bind, format_d, ret, raise in H. injection H as <- <-.
    by rewrite (new_events_app _ _ _ Htr) in Hs.
  - destruct Hc as (host & port & Ha & Htr & Hn & _).
    exists host, port. unfold bind at 1, logging, tell in H.
    unfold bind at 1, thread_start in H.
    set (w2 := snd (__threaded_start self _)) in H.
    assert (exists l, trace w2 = trace w ++
              [EvSocket (next_fd w); EvConnect (next_fd w) host port false;
               EvLog INFO "Starting TCP/IP server thread"; EvThreadStart] ++ l)
      as [l Hl].
    { destruct (threaded_start_confined self
                  (emit EvThreadStart
                     (emit (EvLog INFO "Starting TCP/IP server thread") w1))
                  (fst (__threaded_start self (emit EvThreadStart
                     (emit (EvLog INFO "Starting TCP/IP server thread") w1))))
                  w2) as (l & Hl & _).
      { unfold w2. by destruct (__threaded_start self _). }
      exists l. rewrite Hl. simpl. rewrite Htr, <- !app_assoc. done. }
    unfold bind at 1, logging, tell in H. unfold bind at 1, sleep, tell in H.
    set (w3 := emit (EvSleep 2) _) in H.
    assert (Ht3 : trace w3 = trace w2 ++
              [EvLog INFO "Waiting for server to start"; EvSleep 2]).
    { unfold w3; simpl. by rewrite <- app_assoc. }
    assert (exists l', trace w' = trace w3 ++ l') as [l' Hl'].
    { unfold bind in H. rewrite ping_eq in H.
      destruct (__send_receive_data _ _ _ _ w3) as [o1 w4] eqn:Hsr.
      apply send_receive_transaction in Hsr.
      assert (exists l', trace w4 = trace w3 ++ l') as [l' Hl'].
      { inversion Hsr; eauto. }
      exists l'. destruct o1 as [d|e|];
        [destruct (parse_json d)| |]; by injection H as _ <-. }
    eexists. split; [done|]. apply new_events_app.
    rewrite Hl', Ht3, Hl, <- !app_assoc. reflexivity.
  - destruct Hc as [Htr|Htr]; injection H as <- <-.
    + unfold new_events in Hs. by rewrite Htr, drop_all in Hs.
    + by rewrite (new_events_app _ _ _ Htr) in Hs.
  - destruct Hc as [Htr|Htr]; injection H as <- <-.
    + unfold new_events in Hs. by rewrite Htr, drop_all in Hs.
    + by rewrite (new_events_app _ _ _ Htr) in Hs.
Qed.

Lemma check_refused self host port w :
  has_address self host port ->
  all_refused 1 (net w) = true ->
  exists w1,
    __check_if_server_is_running self w = (Ret false, w1) /\
    trace w1 = trace w ++ [EvSocket (next_fd w);
                           EvConnect (next_fd w) host port false] /\
    next_fd w1 = S (next_fd w) /\ net w1 = tail (net w).
Proof.
  intros (tcp & Ht & Hi & Hq) Hr. unfold __check_if_server_is_running.
  rewrite bind_getitem, Ht, bind_getitem, Hi, bind_getitem, Ht, bind_getitem, Hq.
  unfold bind, socket_socket, connect_ex, connect, ret. simpl.
  destruct (net w) as [|[peer|] rest] eqn:Hnet; [|done|]; simpl;
    eexists; (split; [reflexivity|]); simpl; rewrite <- app_assoc, ?Hnet;
    by repeat split.
Qed.

(** On a free port [start] probes, launches, sleeps and then pings. *)
Lemma start_on_a_free_port self path host port w :
  __optimizer_path self = Some path ->
  has_address self host port ->
  all_refused 1 (net w) = true ->
  exists w3 launch,
    start self w = (ping self ;;; ret tt) w3 /\
    trace w3 = trace w ++
      [EvSocket (next_fd w); EvConnect (next_fd w) host port false;
       EvLog INFO "Starting TCP/IP server thread"; EvThreadStart]
      ++ launch
      ++ [EvLog INFO "Waiting for server to start"; EvSleep 2] /\
    Forall (fun e => launch_event e = true) launch /\
    next_fd w3 = S (next_fd w) /\ net w3 = tail (net w).
Proof.
  intros Hp Ha Hr.
  destruct (check_refused self host port w Ha Hr) as (w1 & Hc & Ht & Hn & Hnet).
  unfold start. rewrite Hp. unfold bind at 1. rewrite Hc.
  unfold bind at 1, logging, tell. unfold bind at 1, thread_start.
  unfold bind at 1, logging, tell. unfold bind at 1, sleep, tell.
  set (w0 := emit EvThreadStart
               (emit (EvLog INFO "Starting TCP/IP server thread") w1)).
  destruct (__threaded_start self w0) as [o2 w2] eqn:Hts.
  destruct (threaded_start_confined self _ _ _ Hts)
    as (launch & Ht2 & Hl & Hn2 & Hnet2 & _).
  eexists _, launch. split; [reflexivity|]. simpl. split; [|split; [done|]].
  - simpl. rewrite Ht2. unfold w0; simpl.
    rewrite Ht, <- !app_assoc. reflexivity.
  - rewrite Hn2, Hnet2. unfold w0; simpl. by rewrite Hn, Hnet.
Qed.

Lemma closed_in_sockets fd evs : fd ∈ closed evs -> fd ∈ sockets evs.
Proof.
  unfold closed, sockets. induction evs as [|e evs IH]; [done|].
  destruct e; simpl; try (intros ?; right; by apply IH); try by apply IH.
  intros [->|?]%elem_of_cons; [left|right; by apply IH].
Qed.

End StartInFull.

(** ** The transport, in full *)

Section TransportInFull.
Context {RT : Runtime}.
Import Py.

Lemma take_drop n : forall s, take n s +:+ drop n s = s.
Proof.
  unfold take, drop. induction n as [|n IH]; intros [|c s]; try reflexivity.
  - simpl. change (String c (substring 0 (String.length s) s) = String c s).
    f_equal. clear. induction s as [|c s IH]; [done|]. simpl. by rewrite IH.
  - simpl String.length. simpl Nat.sub.
    change (String c (substring 0 n s +:+ substring n (String.length s - n) s)
            = String c s).
    by rewrite IH.
Qed.

Lemma take_all n s : String.length s <= n -> take n s = s.
Proof.
  unfold take. revert s. induction n as [|n IH]; intros [|c s] H;
    simpl in *; try done; try lia.
  rewrite IH; [done|lia].
Qed.

Lemma drop_all_string n s : String.length s <= n -> drop n s = EmptyString.
Proof.
  intros H. pose proof (take_drop n s) as Htd. rewrite (take_all n s H) in Htd.
  destruct (drop n s) as [|c r] eqn:E; [done|].
  exfalso. assert (Hl : String.length (s +:+ String c r) = String.length s)
    by (by rewrite Htd).
  rewrite length_append in Hl. simpl in Hl. lia.
Qed.

Lemma next_chunk_stream n segs :
  match next_chunk n segs with
  | Some (chunk, pending) => chunk +:+ stream pending = stream segs
  | None => stream segs = EmptyString
  end.
Proof.
  induction segs as [|[|c s] rest IH]; [done|exact IH|].
  simpl next_chunk. simpl stream.
  pose proof (take_drop n (String c s)) as Htd.
  destruct (drop n (String c s)) as [|c' r] eqn:E.
  - rewrite append_nil_r in Htd. by rewrite Htd.
  - simpl stream. rewrite <- append_assoc. by rewrite Htd.
Qed.

(** Reading from a peer that closes after its answer never blocks and never
    fails; what is read is the beginning of what the peer sends. *)
Lemma read_rounds_closing fd b rounds : forall data w peer,
  socks w !! fd = Some peer ->
  closes peer = true ->
  (0 <= b)%Z ->
  exists got w' peer',
    read_rounds fd b rounds data w = (Ret (data +:+ got), w') /\
    socks w' !! fd = Some peer' /\ closes peer' = true /\
    got +:+ stream (incoming peer') = stream (incoming peer) /\
    (incoming peer = [] -> got = EmptyString).
Proof.
  induction rounds as [|k IH]; intros data w peer Hs Hc Hb.
  { exists EmptyString, w, peer. rewrite append_nil_r. by repeat split. }
  simpl. unfold bind, recv. rewrite (proj2 (Z.ltb_ge _ _) Hb), Hs.
  pose proof (next_chunk_stream (Z.to_nat b) (incoming peer)) as Hn.
  destruct (next_chunk _ _) as [[chunk pending]|] eqn:E.
  - set (w1 := emit _ _).
    destruct (IH (data +:+ chunk) w1 {| incoming := pending; closes := closes peer |})
      as (got & w' & peer' & Hr & Hs' & Hc' & Hst & _);
      [by (unfold w1; simpl; rewrite lookup_insert_eq)|done|done|].
    exists (chunk +:+ got), w', peer'. rewrite <- append_assoc.
    split; [done|]. split; [done|]. split; [done|]. split.
    + rewrite append_assoc. simpl in Hst. by rewrite Hst.
    + intros Hi. by rewrite Hi in E.
  - rewrite Hc. set (w1 := emit _ _).
    destruct (IH (data +:+ EmptyString) w1 peer)
      as (got & w' & peer' & Hr & Hs' & Hc' & Hst & He); [done|done|done|].
    exists got, w', peer'. rewrite append_nil_r in Hr |- *.
    split; [done|]. split; [done|]. split; [done|]. split; [done|].
    intros Hi. by apply He.
Qed.

Lemma append_empty a b : a +:+ b = EmptyString -> a = EmptyString.
Proof. by destruct a. Qed.

Lemma next_chunk_fits n segs :
  Forall (fun s => String.length s <= n) segs ->
  match next_chunk n segs with
  | Some (chunk, pending) =>
      chunk +:+ stream pending = stream segs /\
      Forall (fun s => String.length s <= n) pending /\
      length pending < length segs
  | None => stream segs = EmptyString
  end.
Proof.
  induction 1 as [|s rest Hs Hrest IH]; [done|].
  destruct s as [|c s].
  - simpl. destruct (next_chunk n rest) as [[chunk pending]|]; [|done].
    destruct IH as (? & ? & ?). repeat split; [done|done|lia].
  - simpl next_chunk. rewrite (take_all _ _ Hs), (drop_all_string _ _ Hs).
    simpl. repeat split; [done|lia].
Qed.

(** When every segment fits the buffer and there are no more segments than
    rounds, the loop reads the whole answer. *)
Lemma read_rounds_whole fd b rounds : forall data w peer,
  socks w !! fd = Some peer ->
  closes peer = true ->
  (0 <= b)%Z ->
  Forall (fun s => String.length s <= Z.to_nat b) (incoming peer) ->
  length (incoming peer) <= rounds ->
  exists w',
    read_rounds fd b rounds data w
      = (Ret (data +:+ stream (incoming peer)), w').
Proof.
  induction rounds as [|k IH]; intros data w peer Hs Hc Hb Hf Hl.
  { destruct (incoming peer); [|simpl in Hl; lia]. exists w. simpl.
    by rewrite append_nil_r. }
  pose proof (next_chunk_fits _ _ Hf) as Hn.
  destruct (next_chunk (Z.to_nat b) (incoming peer)) as [[chunk pending]|] eqn:E.
  - destruct Hn as (Hst & Hf' & Hlt).
    simpl. unfold bind, recv. rewrite (proj2 (Z.ltb_ge _ _) Hb), Hs, E.
    set (w1 := emit _ _).
    destruct (IH (data +:+ chunk) w1
                {| incoming := pending; closes := closes peer |})
      as (w' & Hr); [by (unfold w1; simpl; rewrite lookup_insert_eq)
                    |done|done|done|simpl; lia|].
    exists w'. rewrite Hr. simpl. by rewrite append_assoc, Hst.
  - destruct (read_rounds_closing fd b (S k) data w peer Hs Hc Hb)
      as (got & w' & peer' & Hr & _ & _ & Hst & _).
    exists w'. rewrite Hr, Hn. rewrite Hn in Hst.
    by rewrite (append_empty _ _ Hst).
Qed.


Lemma round_cap_zero m b : (m <= 0)%Z -> (0 < b)%Z -> round_cap m b = 0.
Proof.
  intros Hm Hb. unfold round_cap.
  assert (0 <= (- m) / b)%Z by (apply Z.div_pos; lia). lia.
Qed.

(** The transaction once the first attempt is accepted: up to the reads. *)
Lemma send_receive_after_accept self host port payload b m w peer rest :
  has_address self host port ->
  net w = Some peer :: rest ->
  exists w3,
    trace w3 = trace w ++ opening (next_fd w) host port payload /\
    socks w3 !! next_fd w = Some peer /\ next_fd w3 = S (next_fd w) /\
    __send_receive_data self payload b m w =
      (max_read_rounds <- math_ceil_div m b ;;
       data <- read_rounds (next_fd w) b (Z.to_nat max_read_rounds)
                 EmptyString ;;
       close (next_fd w) ;;;
       decode data) w3.
Proof.
  intros Ha Hnet.
  destruct (obtain_first_accepted _ _ _ _ _ _ Ha Hnet)
    as (w1 & Ho & Ht & Hn & Hs).
  exists (emit (EvShutdownWr (next_fd w))
            (emit (EvSendAll (next_fd w) payload) w1)).
  split; [|split; [done|split; [done|]]].
  - simpl. rewrite Ht, <- !app_assoc. done.
  - unfold __send_receive_data. unfold bind at 1. rewrite Ho.
    unfold bind at 1, sendall, encode. rewrite Hs.
    unfold bind at 1, shutdown_wr. simpl. by rewrite Hs.
Qed.

End TransportInFull.

(** ** What the transport delivers *)

Section Delivery.
Context {RT : Runtime}.
Import Py.

(** Against a peer that closes after its answer, with a positive buffer:
    the transaction completes, on the first socket, and decodes what the
    read loop got, which is the beginning of the answer. *)
Lemma send_receive_closing self host port payload b m w peer rest :
  has_address self host port ->
  net w = Some peer :: rest ->
  closes peer = true ->
  (0 < b)%Z ->
  exists got remainder reads w',
    __send_receive_data self payload b m w =
      (if utf8_valid got then Ret got else Raise UnicodeDecodeError, w') /\
    stream (incoming peer) = got +:+ remainder /\
    (Forall (fun s => String.length s <= Z.to_nat b) (incoming peer) ->
     length (incoming peer) <= round_cap m b ->
     got = stream (incoming peer)) /\
    new_events w w' =
      opening (next_fd w) host port payload ++ reads ++ [EvClose (next_fd w)] /\
    Forall (fun e => recv_on (next_fd w) b e = true) reads /\
    length reads = round_cap m b /\ got = received reads.
Proof.
  intros Ha Hnet Hc Hb.
  destruct (send_receive_after_accept self host port payload b m w peer rest
              Ha Hnet) as (w3 & Ht3 & Hs3 & Hn3 & ->).
  unfold bind at 1, math_ceil_div.
  destruct (b =? 0)%Z eqn:Hb0; [apply Z.eqb_eq in Hb0; lia|].
  unfold ret at 1. fold (round_cap m b). unfold bind at 1.
  destruct (read_rounds_closing (next_fd w) b (round_cap m b) EmptyString
              w3 peer Hs3 Hc ltac:(lia))
    as (got & w4 & peer' & Hr & _ & _ & Hst & _).
  change (EmptyString +:+ got) with got in Hr.
  destruct (read_rounds_cases _ _ _ _ _ _ _ Hr)
    as (reads & Ht4 & Hfr & _ & Hgot & Hlen).
  change (EmptyString +:+ received reads) with (received reads) in Hgot.
  rewrite Hr. unfold bind, close, decode.
  exists got, (stream (incoming peer')), reads. eexists.
  split; [by destruct (utf8_valid got)|]. split; [done|]. split.
  { intros Hf Hl.
    destruct (read_rounds_whole (next_fd w) b (round_cap m b) EmptyString
                w3 peer Hs3 Hc ltac:(lia) Hf Hl) as (w4' & Hr').
    rewrite Hr in Hr'. by injection Hr' as ->. }
  split; [|done].
  apply new_events_app. simpl. rewrite Ht4, Ht3, <- !app_assoc. done.
Qed.


(** X9. [ping] returns the acknowledgement: when the server's answer (in
    segments of at most 512 bytes, at most 2048 of them) is a well-formed
    document, [ping] returns that document, parsed. *)
Theorem ping_returns_the_acknowledgement self host port w peer rest doc :
  has_address self host port ->
  net w = Some peer :: rest ->
  closes peer = true ->
  Forall (fun s => String.length s <= 512) (incoming peer) ->
  length (incoming peer) <= 2048 ->
  utf8_valid (stream (incoming peer)) = true ->
  parse_json (stream (incoming peer)) = Some doc ->
  fst (ping self w) = Ret doc.
Proof.
  intros Ha Hnet Hc Hf Hl Hu Hp.
  destruct (send_receive_closing self host port ping_request
              default_buffer_size default_max_data_size w peer rest
              Ha Hnet Hc ltac:(done))
    as (got & remainder & reads & w' & Hs & _ & Hw & _).
  rewrite (Hw Hf Hl), Hu in Hs. rewrite ping_eq, Hs, Hp. done.
Qed.



(** X12. A zero buffer length: [call] with [buffer_len = 0] fails with
    [ZeroDivisionError], but only after it has connected and sent the
    request; it reads nothing and leaves the socket open. *)
Theorem call_with_zero_buffer_fails_after_sending
    self host port p g y pen m w peer rest :
  has_address self host port ->
  net w = Some peer :: rest ->
  exists w',
    call self p g y pen 0 m w = (Raise ZeroDivisionError, w') /\
    new_events w w' =
      EvLog DEBUG "Sending request to TCP/IP server"
      :: opening (next_fd w) host port (run_message p g y pen) /\
    closed (new_events w w') = [].
Proof.
  intros Ha Hnet.
  destruct (send_receive_after_accept self host port (run_message p g y pen)
              0 m (emit (EvLog DEBUG "Sending request to TCP/IP server") w)
              peer rest Ha Hnet) as (w3 & Ht3 & _ & _ & Hs).
  exists w3. rewrite call_eq, Hs. unfold bind at 1, math_ceil_div. simpl.
  simpl in Ht3. rewrite <- app_assoc in Ht3.
  rewrite (new_events_app _ _ _ Ht3). done.
Qed.

(** X13. A size limit of zero or less: with a positive buffer (sizes
    below 2^53 in absolute value) the round cap is zero, so the transaction reads nothing at all; it closes the
    socket and returns the empty text, whatever the server sends. *)
Theorem nothing_is_read_under_a_zero_size_limit
    self host port payload b m w peer rest :
  has_address self host port ->
  net w = Some peer :: rest ->
  (0 < b)%Z ->
  (m <= 0)%Z ->
  float_sized b = true ->
  float_sized m = true ->
  exists w',
    __send_receive_data self payload b m w =
      (if utf8_valid EmptyString then Ret EmptyString
       else Raise UnicodeDecodeError, w') /\
    new_events w w' =
      opening (next_fd w) host port payload ++ [EvClose (next_fd w)].
Proof.
  intros Ha Hnet Hb Hm _ _.
  destruct (send_receive_after_accept self host port payload b m w peer rest
              Ha Hnet) as (w3 & Ht3 & _ & _ & ->).
  unfold bind at 1, math_ceil_div.
  destruct (b =? 0)%Z eqn:Hb0; [apply Z.eqb_eq in Hb0; lia|].
  unfold ret at 1. fold (round_cap m b). rewrite (round_cap_zero _ _ Hm Hb).
  unfold bind, read_rounds, ret, close, decode.
  eexists. split; [by destruct (utf8_valid EmptyString)|].
  apply new_events_app. simpl. rewrite Ht3, <- !app_assoc. done.
Qed.

End Delivery.

(** ** The retry loop, in full *)

Section RetryInFull.
Context {RT : Runtime}.
Import Py.

Lemma refused_attempts_observed host port delay k : forall fd,
  connect_attempts (refused_attempts host port delay fd k) = replicate k false /\
  sleeps (refused_attempts host port delay fd k) = replicate k delay /\
  sent (refused_attempts host port delay fd k) = [] /\
  closed (refused_attempts host port delay fd k) = [].
Proof.
  induction k as [|k IH]; intros fd; [done|].
  destruct (IH (S fd)) as (H1 & H2 & H3 & H4). simpl.
  unfold connect_attempts, sleeps, sent, closed in *. simpl.
  by rewrite H1, H2, H3, H4.
Qed.

Lemma reads_quiet fd b reads :
  Forall (fun e => recv_on fd b e = true) reads ->
  sleeps reads = [] /\ opened reads = [].
Proof.
  induction 1 as [|e reads He _ [IH1 IH2]]; [done|]. by destruct e.
Qed.

(** After [k] refusals the retry loop obtains the connection at attempt
    [k + 1], provided it has that many tries. *)
Lemma retry_after_refusals self host port delay peer rest k : forall more w,
  k <= more ->
  has_address self host port ->
  net w = replicate k None ++ Some peer :: rest ->
  exists w1,
    retry_internal (connect_once self) more delay 1 0 w
      = (Ret (next_fd w + k), w1) /\
    trace w1 = trace w ++ refused_attempts host port delay (next_fd w) k
                 ++ [EvSocket (next_fd w + k);
                     EvConnect (next_fd w + k) host port true] /\
    socks w1 !! (next_fd w + k) = Some peer /\
    next_fd w1 = S (next_fd w + k).
Proof.
  induction k as [|k IH]; intros more w Hk Ha Hnet;
    rewrite retry_internal_eq, (connect_once_eq _ _ _ _ Ha);
    unfold bind, socket_socket, connect; simpl; rewrite Hnet; simpl.
  - rewrite Nat.add_0_r. eexists. split; [reflexivity|]. simpl.
    rewrite <- app_assoc, lookup_insert_eq. done.
  - destruct more as [|more]; [lia|].
    assert (Hd : (delay * 1 + 0)%Z = delay) by lia. rewrite Hd.
    set (w2 := emit (EvSleep delay) _).
    destruct (IH more w2 ltac:(lia) Ha) as (w1 & Hw1 & Ht & Hs & Hn);
      [done|].
    exists w1. replace (next_fd w + S k) with (next_fd w2 + k)
      by (unfold w2; simpl; lia).
    split; [done|]. split; [|done].
    rewrite Ht. unfold w2; simpl. rewrite <- !app_assoc. done.
Qed.

(** X14. A slow start is absorbed: when the server refuses [k] attempts,
    nine at most, and accepts the next one, the operation connects at
    attempt [k + 1] after [k] sleeps of one second and sends its request. *)
Theorem connection_is_obtained_after_refusals
    self host port r w o w' peer rest k :
  perform self r w = (o, w') ->
  has_address self host port ->
  net w = replicate k None ++ Some peer :: rest ->
  k <= 9 ->
  connect_attempts (new_events w w') = replicate k false ++ [true] /\
  sleeps (new_events w w') = replicate k 1%Z /\
  sent (new_events w w') = [payload_of r].
Proof.
  intros (logs & w0 & o1 & Hl & Ht0 & Hn0 & Hnet0 & Hs & _)%perform_cases
         Ha Hnet Hk.
  rewrite <- Hnet0 in Hnet.
  unfold __send_receive_data, __obtain_socket_connection, retry in Hs.
  change (10 - 1) with 9 in Hs. unfold bind at 1 in Hs.
  destruct (retry_after_refusals self host port 1 peer rest k 9 w0 Hk Ha Hnet)
    as (w1 & Hr & Ht1 & Hs1 & Hn1).
  rewrite Hr in Hs.
  destruct (exchange_cases _ _ _ _ _ _ _ (ex_intro _ peer Hs1) Hs)
    as (reads & Hfr & _ & Hcase).
  destruct (refused_attempts_observed host port 1 k (next_fd w0))
    as (Hra & Hrs & Hrt & _).
  destruct (reads_silent _ _ _ Hfr) as (Hsr & _ & Hcr & _).
  destruct (reads_quiet _ _ _ Hfr) as (Hqr & _).
  assert (Hlog : connect_attempts logs = [] /\ sleeps logs = [] /\
                 sent logs = []).
  { clear -Hl. induction Hl as [|e l He _ (I1 & I2 & I3)]; [done|].
    by destruct e. }
  destruct Hlog as (Hl1 & Hl2 & Hl3).
  assert (exists tail, trace w' = trace w ++ logs ++
            refused_attempts host port 1 (next_fd w0) k ++
            [EvSocket (next_fd w0 + k); EvConnect (next_fd w0 + k) host port true;
             EvSendAll (next_fd w0 + k) (payload_of r);
             EvShutdownWr (next_fd w0 + k)] ++ reads ++ tail /\
          connect_attempts tail = [] /\ sleeps tail = [] /\ sent tail = [])
    as (tail & Ht & Hc1 & Hc2 & Hc3).
  { destruct Hcase as [[Ht _]|(Ht & _)].
    - exists []. rewrite Ht, Ht1, Ht0, <- !app_assoc, app_nil_r. done.
    - exists [EvClose (next_fd w0 + k)].
      rewrite Ht, Ht1, Ht0, <- !app_assoc. done. }
  rewrite (new_events_app _ _ _ Ht).
  unfold connect_attempts, sleeps, sent in *.
  rewrite !omap_app, Hl1, Hl2, Hl3, Hra, Hrs, Hrt, Hsr, Hcr, Hqr, Hc1, Hc2, Hc3.
  simpl. by rewrite !app_nil_r.
Qed.

End RetryInFull.

(** ** Bounds that hold for every operation *)

Section Bounds.
Context {RT : Runtime}.
Import Py.

Lemma connect_once_counts self w :
  exists evs,
    trace (snd (connect_once self w)) = trace w ++ evs /\
    length (connect_attempts evs) <= 1 /\ sleeps evs = [].
Proof.
  unfold connect_once, bind, getitem, ret, raise.
  destruct (_ !! "tcp") as [tcp|]; simpl;
    [|exists []; rewrite app_nil_r; repeat split; simpl; lia].
  destruct (tcp !! "ip") as [ip|]; simpl; [|exists []; rewrite app_nil_r; repeat split; simpl; lia].
  destruct (tcp !! "port") as [port|]; simpl;
    [|exists []; rewrite app_nil_r; repeat split; simpl; lia].
  unfold socket_socket, connect.
  destruct ip as [host|], port as [|p]; simpl;
    try (exists [EvSocket (next_fd w)]; repeat split; simpl; lia).
  destruct (net w) as [|[peer|] rest]; simpl; eexists [_; _];
    rewrite <- app_assoc; repeat split; simpl; lia.
Qed.

Lemma retry_counts self more : forall delay w,
  exists evs,
    trace (snd (retry_internal (connect_once self) more delay 1 0 w))
      = trace w ++ evs /\
    length (connect_attempts evs) <= S more /\
    length (sleeps evs) <= more /\
    Forall (fun s => s = delay) (sleeps evs).
Proof.
  induction more as [|k IH]; intros delay w; rewrite retry_internal_eq;
    destruct (connect_once_counts self w) as (evs & Ht & Hc & Hs);
    destruct (connect_once self w) as [[fd|e|] w1]; simpl in Ht;
    try (exists evs; rewrite Hs; repeat split; simpl; try done; lia).
  set (w2 := emit _ (emit _ w1)).
  destruct (IH (delay * 1 + 0)%Z w2) as (evs' & Ht' & Hc' & Hs' & Hf').
  exists (evs ++ [EvLog WARNING "%s, retrying in %s seconds...";
                  EvSleep delay] ++ evs').
  split.
  { rewrite Ht'. unfold w2; simpl. rewrite Ht, <- !app_assoc. done. }
  unfold connect_attempts, sleeps in *.
  rewrite !omap_app, !length_app, Hs. simpl.
  split; [lia|]. split; [lia|]. constructor; [done|].
  eapply Forall_impl; [exact Hf'|]. intros s ->. lia.
Qed.

(** X15. The retry budget holds for every operation, whatever the server
    does and however the operation ends: at most ten connection attempts,
    at most nine sleeps, each of one second. *)
Theorem every_operation_keeps_to_the_retry_budget self r w o w' :
  perform self r w = (o, w') ->
  length (connect_attempts (new_events w w')) <= 10 /\
  length (sleeps (new_events w w')) <= 9 /\
  Forall (fun s => s = 1%Z) (sleeps (new_events w w')).
Proof.
  intros (logs & w0 & o1 & Hl & Ht0 & _ & _ & Hs & _)%perform_cases.
  assert (Hlog : connect_attempts logs = [] /\ sleeps logs = []).
  { clear -Hl. induction Hl as [|e l He _ (I1 & I2)]; [done|]. by destruct e. }
  destruct Hlog as (Hl1 & Hl2).
  unfold __send_receive_data, __obtain_socket_connection, retry in Hs.
  change (10 - 1) with 9 in Hs. unfold bind at 1 in Hs.
  destruct (retry_counts self 9 1 w0) as (evs & Ht & Hc & Hsl & Hf).
  pose proof (retry_cases self 9 1 w0) as Hrc.
  destruct (retry_internal (connect_once self) 9 1 1 0 w0) as [[fd|e|] w1];
    simpl in Ht.
  2,3: injection Hs as <- <-; rewrite Ht0, <- app_assoc in Ht;
       rewrite (new_events_app _ _ _ Ht); unfold connect_attempts, sleeps in *;
       rewrite !omap_app, Hl1, Hl2; done.
  destruct Hrc as (_ & _ & Hsock & _).
  destruct (exchange_cases _ _ _ _ _ _ _ Hsock Hs)
    as (reads & Hfr & _ & Hcase).
  destruct (reads_silent _ _ _ Hfr) as (_ & _ & Hcr & _).
  destruct (reads_quiet _ _ _ Hfr) as (Hqr & _).
  assert (exists tail, trace w' = trace w ++ logs ++ evs ++
            [EvSendAll fd (payload_of r); EvShutdownWr fd] ++ reads ++ tail /\
          connect_attempts tail = [] /\ sleeps tail = [])
    as (tail & Ht' & Hc1 & Hc2).
  { destruct Hcase as [[Ht' _]|(Ht' & _)].
    - exists []. rewrite Ht', Ht, Ht0, <- !app_assoc, app_nil_r. done.
    - exists [EvClose fd]. rewrite Ht', Ht, Ht0, <- !app_assoc. done. }
  rewrite (new_events_app _ _ _ Ht'). unfold connect_attempts, sleeps in *.
  rewrite !omap_app, Hl1, Hl2, Hcr, Hqr, Hc1, Hc2. simpl.
  by rewrite !app_nil_r.
Qed.

(** X16. [kill] does not look at the answer: against a server that
    answers anything, or nothing, and closes, [kill] returns as soon as what
    it read is decodable text; it never parses it. *)
Theorem kill_returns_whatever_the_answer self host port w peer rest :
  has_address self host port ->
  net w = Some peer :: rest ->
  closes peer = true ->
  exists got remainder,
    stream (incoming peer) = got +:+ remainder /\
    (incoming peer = [] -> got = EmptyString) /\
    fst (kill self w) =
      (if utf8_valid got then Ret tt else Raise UnicodeDecodeError).
Proof.
  intros Ha Hnet Hc.
  destruct (send_receive_closing self host port kill_request
              default_buffer_size default_max_data_size
              (emit (EvLog INFO "Killing server") w) peer rest
              Ha Hnet Hc ltac:(done))
    as (got & remainder & reads & w' & Hs & Hst & Hw & Hn & Hfr & Hlen & Hg).
  exists got, remainder. split; [done|]. split.
  { intros Hi. rewrite Hw; rewrite Hi; [done|by constructor|simpl; lia]. }
  rewrite kill_eq, Hs. by destruct (utf8_valid got).
Qed.

End Bounds.

(** ** [start] to the end *)

Section StartToTheEnd.
Context {RT : Runtime}.
Import Py.

Lemma launch_quiet launch :
  Forall (fun e => launch_event e = true) launch ->
  connect_attempts launch = [] /\ sleeps launch = [] /\ closed launch = [].
Proof.
  induction 1 as [|e l He _ (I1 & I2 & I3)]; [done|]. by destruct e.
Qed.

(** A ping against a server that answers a well-formed document and
    closes: the document, and the events of one completed transaction. *)
Lemma ping_acknowledged self host port w peer rest doc :
  has_address self host port ->
  net w = Some peer :: rest ->
  closes peer = true ->
  Forall (fun s => String.length s <= 512) (incoming peer) ->
  length (incoming peer) <= 2048 ->
  utf8_valid (stream (incoming peer)) = true ->
  parse_json (stream (incoming peer)) = Some doc ->
  exists w' reads,
    ping self w = (Ret doc, w') /\
    trace w' = trace w ++ opening (next_fd w) host port ping_request
                 ++ reads ++ [EvClose (next_fd w)] /\
    Forall (fun e => recv_on (next_fd w) default_buffer_size e = true) reads.
Proof.
  intros Ha Hnet Hc Hf Hl Hu Hp.
  destruct (send_receive_closing self host port ping_request
              default_buffer_size default_max_data_size w peer rest
              Ha Hnet Hc ltac:(done))
    as (got & remainder & reads & w' & Hs & _ & Hw & Hn & Hfr & _).
  rewrite (Hw Hf Hl), Hu in Hs. exists w', reads.
  split; [by rewrite ping_eq, Hs, Hp|]. split; [|done].
  apply send_receive_transaction in Hs.
  assert (exists l, trace w' = trace w ++ l) as [l Hl']
    by (inversion Hs; eauto).
  by rewrite Hl', <- Hn, (new_events_app _ _ _ Hl').
Qed.

(** X17. [start] returns once the server answers: on a free port, when the
    launched server accepts the connection of the readiness ping and
    answers a well-formed document, [start] returns normally, after the
    refused probe, one settling sleep of two seconds and one accepted
    connection; the only socket it closes is the one of the ping. *)
Theorem start_returns_once_the_server_answers
    self path host port w peer rest doc :
  __optimizer_path self = Some path ->
  has_address self host port ->
  net w = None :: Some peer :: rest ->
  closes peer = true ->
  Forall (fun s => String.length s <= 512) (incoming peer) ->
  length (incoming peer) <= 2048 ->
  utf8_valid (stream (incoming peer)) = true ->
  parse_json (stream (incoming peer)) = Some doc ->
  fst (start self w) = Ret tt /\
  connect_attempts (new_events w (snd (start self w))) = [false; true] /\
  sleeps (new_events w (snd (start self w))) = [2%Z] /\
  closed (new_events w (snd (start self w))) = [S (next_fd w)].
Proof.
  intros Hp Ha Hnet Hc Hf Hl Hu Hj.
  destruct (start_on_a_free_port self path host port w Hp Ha)
    as (w3 & launch & Hs & Ht & Hla & Hfd & Hnet3); [by rewrite Hnet|].
  rewrite Hnet in Hnet3. simpl in Hnet3.
  destruct (ping_acknowledged self host port w3 peer rest doc
              Ha Hnet3 Hc Hf Hl Hu Hj) as (w4 & reads & Hping & Ht4 & Hfr).
  rewrite Hs. unfold bind. rewrite Hping. simpl. split; [done|].
  rewrite Ht, <- !app_assoc in Ht4. rewrite (new_events_app _ _ _ Ht4).
  destruct (launch_quiet _ Hla) as (L1 & L2 & L3).
  destruct (reads_silent _ _ _ Hfr) as (_ & R3 & R1 & _).
  destruct (reads_quiet _ _ _ Hfr) as (R2 & _).
  unfold connect_attempts, sleeps, closed in *.
  rewrite !omap_app, L1, L2, L3, R1, R2, R3, Hfd. done.
Qed.

Lemma all_refused_next n l :
  all_refused (S n) l = true ->
  all_refused 1 l = true /\ all_refused n (tail l) = true.
Proof.
  unfold all_refused. destruct l as [|[peer|] l]; simpl; [|done|done].
  by rewrite take_nil.
Qed.

(** X7. [start] gives up when the server stays down: on a free port, when
    nothing accepts a connection after the launch, the outcome of [start]
    is that of its readiness ping, the connection error of the last
    attempt.  By then it has launched the server thread, made eleven
    attempts that were refused (the probe and the ten tries of the ping),
    slept two seconds and then nine times one second, and sent nothing: in
    particular it does not tell what it launched to stop. *)
Theorem start_gives_up_when_the_server_stays_down self path host port w :
  __optimizer_path self = Some path ->
  has_address self host port ->
  all_refused 11 (net w) = true ->
  fst (start self w) = Raise ConnectionRefusedError /\
  existsb is_spawn (new_events w (snd (start self w))) = true /\
  connect_attempts (new_events w (snd (start self w))) = replicate 11 false /\
  sleeps (new_events w (snd (start self w))) = 2%Z :: replicate 9 1%Z /\
  sent (new_events w (snd (start self w))) = [].
Proof.
  intros Hp Ha [Hr1 Hr10]%all_refused_next.
  destruct (start_on_a_free_port self path host port w Hp Ha Hr1)
    as (w3 & launch & Hs & Ht & Hla & Hfd & Hnet3).
  rewrite <- Hnet3 in Hr10.
  destruct (send_receive_refused self host port ping_request
              default_buffer_size default_max_data_size w3 Ha Hr10)
    as (w4 & Hsr & Ht4).
  rewrite Hs. unfold bind. rewrite ping_eq, Hsr. simpl. split; [done|].
  rewrite Ht, <- !app_assoc in Ht4. rewrite (new_events_app _ _ _ Ht4).
  destruct (launch_quiet _ Hla) as (L1 & L2 & _).
  assert (L3 : sent launch = []).
  { clear -Hla. induction Hla as [|e l He _ IH]; [done|]. by destruct e. }
  destruct (refused_attempts_observed host port 1 9 (next_fd w3))
    as (R1 & R2 & R3 & _).
  split; [done|].
  unfold connect_attempts, sleeps, sent in *.
  rewrite !omap_app, L1, L2, L3, R1, R2, R3. done.
Qed.

End StartToTheEnd.

(** ** The further properties at concrete inputs *)

Lemma demo_address : has_address Demo.client "127.0.0.1" 8333.
Proof. exists Demo.tcp. repeat split; vm_compute; reflexivity. Defined.

Lemma demo_segments n :
  String.length Demo.pong <= n ->
  Forall (fun s => String.length s <= n) (incoming Demo.server).
Proof. intros H. constructor; [exact H|constructor]. Defined.

Lemma version_skew_only_warns_witness :
  __init__ (Some "/opt") None None Demo.upgraded
    = (Ret Demo.client, Demo.constructed) /\
  __optimizer_details_from_yml Demo.client !! "build" = Some Demo.build /\
  Demo.build !! "opengen_version" = Some (PStr "0.6.1") /\
  warnings (new_events Demo.upgraded Demo.constructed) = 2.
Proof.
  assert (H : __init__ (Some "/opt") None None Demo.upgraded
              = (Ret Demo.client, Demo.constructed))
    by (vm_compute; reflexivity).
  assert (Hb : __optimizer_details_from_yml Demo.client !! "build"
               = Some Demo.build) by (vm_compute; reflexivity).
  assert (Hv : Demo.build !! "opengen_version" = Some (PStr "0.6.1"))
    by (vm_compute; reflexivity).
  split; [exact H|]. split; [exact Hb|]. split; [exact Hv|].
  exact (version_skew_only_warns "/opt" None None Demo.upgraded Demo.client
           Demo.constructed Demo.build (PStr "0.6.1") H Hb Hv).
Defined.

Lemma threaded_start_launches_witness :
  __optimizer_path Demo.client = Some "/opt" /\
  __optimizer_details_from_yml Demo.client !! "tcp" = Some Demo.tcp /\
  Demo.tcp !! "ip" = Some (PStr "127.0.0.1") /\
  Demo.tcp !! "port" = Some (PInt 8333) /\
  __optimizer_details_from_yml Demo.client !! "build" = Some Demo.build /\
  Demo.build !! "build_mode" = Some (PStr "release") /\
  __optimizer_details_from_yml Demo.client !! "meta" = Some Demo.meta /\
  Demo.meta !! "optimizer_name" = Some (PStr "foo") /\
  exists command,
    popens (new_events (Demo.world [])
              (snd (__threaded_start Demo.client (Demo.world []))))
      = [(command, Py.os_path_join "/opt" ("tcp_iface_" +:+ "foo"))] /\
    (command = ["cargo"; "run"; "-q"; "--release"] \/
     command = ["cargo"; "run"; "-q"]) /\
    (In "--release" command <-> PStr "release" = PStr "release").
Proof.
  assert (H1 : __optimizer_details_from_yml Demo.client !! "tcp"
               = Some Demo.tcp) by (vm_compute; reflexivity).
  assert (H2 : Demo.tcp !! "ip" = Some (PStr "127.0.0.1"))
    by (vm_compute; reflexivity).
  assert (H3 : Demo.tcp !! "port" = Some (PInt 8333))
    by (vm_compute; reflexivity).
  assert (H4 : __optimizer_details_from_yml Demo.client !! "build"
               = Some Demo.build) by (vm_compute; reflexivity).
  assert (H5 : Demo.build !! "build_mode" = Some (PStr "release"))
    by (vm_compute; reflexivity).
  assert (H6 : __optimizer_details_from_yml Demo.client !! "meta"
               = Some Demo.meta) by (vm_compute; reflexivity).
  assert (H7 : Demo.meta !! "optimizer_name" = Some (PStr "foo"))
    by (vm_compute; reflexivity).
  split; [reflexivity|]. split; [exact H1|]. split; [exact H2|].
  split; [exact H3|]. split; [exact H4|]. split; [exact H5|].
  split; [exact H6|]. split; [exact H7|].
  exact (threaded_start_launches Demo.client "/opt" Demo.tcp
           (PStr "127.0.0.1") (PInt 8333) Demo.build (PStr "release")
           Demo.meta "foo" (Demo.world []) eq_refl H1 H2 H3 H4 H5 H6 H7).
Defined.

Lemma start_spawns_only_after_a_failed_probe_witness :
  start (RT := Demo.rt) Demo.client Demo.free_port = (Ret tt, Demo.started) /\
  existsb is_spawn (new_events Demo.free_port Demo.started) = true /\
  (exists path, __optimizer_path Demo.client = Some path) /\
  exists host port rest,
    has_address Demo.client host port /\
    new_events Demo.free_port Demo.started =
      EvSocket (next_fd Demo.free_port) ::
      EvConnect (next_fd Demo.free_port) host port false ::
      EvLog INFO "Starting TCP/IP server thread" :: EvThreadStart :: rest.
Proof.
  assert (H : start (RT := Demo.rt) Demo.client Demo.free_port
              = (Ret tt, Demo.started)) by (vm_compute; reflexivity).
  assert (Hs : existsb is_spawn (new_events Demo.free_port Demo.started)
               = true) by (vm_compute; reflexivity).
  split; [exact H|]. split; [exact Hs|].
  exact (start_spawns_only_after_a_failed_probe (RT := Demo.rt) Demo.client
           Demo.free_port (Ret tt) Demo.started H Hs).
Defined.


Lemma ping_returns_the_acknowledgement_witness :
  has_address Demo.client "127.0.0.1" 8333 /\
  net (Demo.world [Some Demo.server]) = Some Demo.server :: [] /\
  closes Demo.server = true /\
  Forall (fun s => String.length s <= 512) (incoming Demo.server) /\
  length (incoming Demo.server) <= 2048 /\
  utf8_valid (Runtime := Demo.rt) (stream (incoming Demo.server)) = true /\
  parse_json (Runtime := Demo.rt) (stream (incoming Demo.server))
    = Some Demo.pong /\
  fst (ping (RT := Demo.rt) Demo.client (Demo.world [Some Demo.server]))
    = Ret Demo.pong.
Proof.
  assert (Hf : Forall (fun s => String.length s <= 512) (incoming Demo.server))
    by (apply demo_segments; vm_compute; lia).
  assert (Hl : length (incoming Demo.server) <= 2048) by (simpl; lia).
  assert (Hp : parse_json (Runtime := Demo.rt) (stream (incoming Demo.server))
               = Some Demo.pong) by (vm_compute; reflexivity).
  split; [exact demo_address|]. split; [reflexivity|]. split; [reflexivity|].
  split; [exact Hf|]. split; [exact Hl|]. split; [reflexivity|].
  split; [exact Hp|].
  exact (ping_returns_the_acknowledgement (RT := Demo.rt) Demo.client
           "127.0.0.1" 8333 (Demo.world [Some Demo.server]) Demo.server []
           Demo.pong demo_address eq_refl eq_refl Hf Hl eq_refl Hp).
Defined.



Lemma call_with_zero_buffer_fails_after_sending_witness :
  has_address Demo.client "127.0.0.1" 8333 /\
  net (Demo.world [Some Demo.server]) = Some Demo.server :: [] /\
  exists w',
    call (RT := Demo.rt) Demo.client [PrimFloat.one] None None None 0 1048576
      (Demo.world [Some Demo.server]) = (Raise ZeroDivisionError, w') /\
    new_events (Demo.world [Some Demo.server]) w' =
      EvLog DEBUG "Sending request to TCP/IP server"
      :: opening (next_fd (Demo.world [Some Demo.server])) "127.0.0.1" 8333
           (run_message (RT := Demo.rt) [PrimFloat.one] None None None) /\
    closed (new_events (Demo.world [Some Demo.server]) w') = [].
Proof.
  split; [exact demo_address|]. split; [reflexivity|].
  exact (call_with_zero_buffer_fails_after_sending (RT := Demo.rt)
           Demo.client "127.0.0.1" 8333 [PrimFloat.one] None None None
           1048576 (Demo.world [Some Demo.server]) Demo.server []
           demo_address eq_refl).
Defined.

Lemma nothing_is_read_under_a_zero_size_limit_witness :
  has_address Demo.client "127.0.0.1" 8333 /\
  net (Demo.world [Some Demo.server]) = Some Demo.server :: [] /\
  (0 < 512)%Z /\
  (0 <= 0)%Z /\
  float_sized 512 = true /\
  float_sized 0 = true /\
  exists w',
    __send_receive_data (RT := Demo.rt) Demo.client ping_request 512 0
      (Demo.world [Some Demo.server]) =
      (if utf8_valid (Runtime := Demo.rt) EmptyString then Ret EmptyString
       else Raise UnicodeDecodeError, w') /\
    new_events (Demo.world [Some Demo.server]) w' =
      opening (next_fd (Demo.world [Some Demo.server])) "127.0.0.1" 8333
        ping_request
      ++ [EvClose (next_fd (Demo.world [Some Demo.server]))].
Proof.
  assert (Hb : (0 < 512)%Z) by lia.
  assert (Hm : (0 <= 0)%Z) by lia.
  split; [exact demo_address|]. split; [reflexivity|]. split; [exact Hb|].
  split; [exact Hm|]. split; [reflexivity|]. split; [reflexivity|].
  exact (nothing_is_read_under_a_zero_size_limit (RT := Demo.rt) Demo.client
           "127.0.0.1" 8333 ping_request 512 0
           (Demo.world [Some Demo.server]) Demo.server []
           demo_address eq_refl Hb Hm eq_refl eq_refl).
Defined.

Lemma connection_is_obtained_after_refusals_witness :
  perform (RT := Demo.rt) Demo.client Ping Demo.slow
    = (Ret tt, Demo.after_slow_ping) /\
  has_address Demo.client "127.0.0.1" 8333 /\
  net Demo.slow = replicate 2 None ++ Some Demo.server :: [] /\
  2 <= 9 /\
  connect_attempts (new_events Demo.slow Demo.after_slow_ping)
    = replicate 2 false ++ [true] /\
  sleeps (new_events Demo.slow Demo.after_slow_ping) = replicate 2 1%Z /\
  sent (new_events Demo.slow Demo.after_slow_ping)
    = [payload_of (RT := Demo.rt) Ping].
Proof.
  assert (H : perform (RT := Demo.rt) Demo.client Ping Demo.slow
              = (Ret tt, Demo.after_slow_ping)) by (vm_compute; reflexivity).
  assert (Hk : 2 <= 9) by lia.
  split; [exact H|]. split; [exact demo_address|]. split; [reflexivity|].
  split; [exact Hk|].
  exact (connection_is_obtained_after_refusals (RT := Demo.rt) Demo.client
           "127.0.0.1" 8333 Ping Demo.slow (Ret tt) Demo.after_slow_ping
           Demo.server [] 2 H demo_address eq_refl Hk).
Defined.

Lemma every_operation_keeps_to_the_retry_budget_witness :
  perform (RT := Demo.rt) Demo.client Ping Demo.slow
    = (Ret tt, Demo.after_slow_ping) /\
  length (connect_attempts (new_events Demo.slow Demo.after_slow_ping)) <= 10 /\
  length (sleeps (new_events Demo.slow Demo.after_slow_ping)) <= 9 /\
  Forall (fun s => s = 1%Z) (sleeps (new_events Demo.slow Demo.after_slow_ping)).
Proof.
  assert (H : perform (RT := Demo.rt) Demo.client Ping Demo.slow
              = (Ret tt, Demo.after_slow_ping)) by (vm_compute; reflexivity).
  split; [exact H|].
  exact (every_operation_keeps_to_the_retry_budget (RT := Demo.rt) Demo.client
           Ping Demo.slow (Ret tt) Demo.after_slow_ping H).
Defined.

Lemma kill_returns_whatever_the_answer_witness :
  has_address Demo.client "127.0.0.1" 8333 /\
  net (Demo.world [Some Demo.garbled]) = Some Demo.garbled :: [] /\
  closes Demo.garbled = true /\
  exists got remainder,
    stream (incoming Demo.garbled) = got +:+ remainder /\
    (incoming Demo.garbled = [] -> got = EmptyString) /\
    fst (kill (RT := Demo.rt) Demo.client (Demo.world [Some Demo.garbled])) =
      (if utf8_valid (Runtime := Demo.rt) got then Ret tt
       else Raise UnicodeDecodeError).
Proof.
  split; [exact demo_address|]. split; [reflexivity|]. split; [reflexivity|].
  exact (kill_returns_whatever_the_answer (RT := Demo.rt) Demo.client
           "127.0.0.1" 8333 (Demo.world [Some Demo.garbled]) Demo.garbled []
           demo_address eq_refl eq_refl).
Defined.

Lemma start_returns_once_the_server_answers_witness :
  __optimizer_path Demo.client = Some "/opt" /\
  has_address Demo.client "127.0.0.1" 8333 /\
  net Demo.free_port = None :: Some Demo.server :: [] /\
  closes Demo.server = true /\
  Forall (fun s => String.length s <= 512) (incoming Demo.server) /\
  length (incoming Demo.server) <= 2048 /\
  utf8_valid (Runtime := Demo.rt) (stream (incoming Demo.server)) = true /\
  parse_json (Runtime := Demo.rt) (stream (incoming Demo.server))
    = Some Demo.pong /\
  fst (start (RT := Demo.rt) Demo.client Demo.free_port) = Ret tt /\
  connect_attempts
    (new_events Demo.free_port
       (snd (start (RT := Demo.rt) Demo.client Demo.free_port)))
    = [false; true] /\
  sleeps
    (new_events Demo.free_port
       (snd (start (RT := Demo.rt) Demo.client Demo.free_port))) = [2%Z] /\
  closed
    (new_events Demo.free_port
       (snd (start (RT := Demo.rt) Demo.client Demo.free_port)))
    = [S (next_fd Demo.free_port)].
Proof.
  assert (Hf : Forall (fun s => String.length s <= 512) (incoming Demo.server))
    by (apply demo_segments; vm_compute; lia).
  assert (Hl : length (incoming Demo.server) <= 2048) by (simpl; lia).
  assert (Hp : parse_json (Runtime := Demo.rt) (stream (incoming Demo.server))
               = Some Demo.pong) by (vm_compute; reflexivity).
  split; [reflexivity|]. split; [exact demo_address|]. split; [reflexivity|].
  split; [reflexivity|]. split; [exact Hf|]. split; [exact Hl|].
  split; [reflexivity|]. split; [exact Hp|].
  exact (start_returns_once_the_server_answers (RT := Demo.rt) Demo.client
           "/opt" "127.0.0.1" 8333 Demo.free_port Demo.server [] Demo.pong
           eq_refl demo_address eq_refl eq_refl Hf Hl eq_refl Hp).
Defined.

Lemma start_gives_up_when_the_server_stays_down_witness :
  __optimizer_path Demo.client = Some "/opt" /\
  has_address Demo.client "127.0.0.1" 8333 /\
  all_refused 11 (net (Demo.world [])) = true /\
  fst (start (RT := Demo.rt) Demo.client (Demo.world []))
    = Raise ConnectionRefusedError /\
  existsb is_spawn
    (new_events (Demo.world [])
       (snd (start (RT := Demo.rt) Demo.client (Demo.world [])))) = true /\
  connect_attempts
    (new_events (Demo.world [])
       (snd (start (RT := Demo.rt) Demo.client (Demo.world []))))
    = replicate 11 false /\
  sleeps
    (new_events (Demo.world [])
       (snd (start (RT := Demo.rt) Demo.client (Demo.world []))))
    = 2%Z :: replicate 9 1%Z /\
  sent
    (new_events (Demo.world [])
       (snd (start (RT := Demo.rt) Demo.client (Demo.world [])))) = [].
Proof.
  split; [reflexivity|]. split; [exact demo_address|]. split; [reflexivity|].
  exact (start_gives_up_when_the_server_stays_down (RT := Demo.rt) Demo.client
           "/opt" "127.0.0.1" 8333 (Demo.world []) eq_refl demo_address
           eq_refl).
Defined.
